(** * OpenQASM 3 AST to circuit translator

  A shallow embedding of [openqasm/translator/translator.py]
  (class [OpenQASM3Translator]) and of the collaborators it calls.

  Python objects that the translator mutates in place (the circuit and the
  context) are passed explicitly: a handler receives a [store] holding both
  and gives back the store as it is when the handler returns or raises.
  An exception does not roll anything back, as in Python. *)

From Stdlib Require Import ZArith String Ascii List.
From stdpp Require Import gmap strings list fin_maps.

Set Implicit Arguments.
Set Warnings "-register-all".
Local Open Scope string_scope.
Local Open Scope list_scope.

(** ** Python helpers *)

Module Py.

(** [s[n:]] on strings. *)
Fixpoint str_from (n : nat) (s : string) : string :=
  match n, s with
  | O, _ => s
  | S _, EmptyString => EmptyString
  | S n', String _ s' => str_from n' s'
  end.

(** [str.startswith]. *)
Definition startswith (s prefix : string) : bool := String.prefix prefix s.

(** [enumerate]. *)
Fixpoint enumerate_from {A : Type} (i : nat) (l : list A) : list (nat * A) :=
  match l with
  | [] => []
  | x :: l' => (i, x) :: enumerate_from (S i) l'
  end.

Definition enumerate {A : Type} (l : list A) : list (nat * A) := enumerate_from 0 l.

(** [zip]: stops at the shorter argument. *)
Fixpoint zip {A B : Type} (l : list A) (k : list B) : list (A * B) :=
  match l, k with
  | x :: l', y :: k' => (x, y) :: zip l' k'
  | _, _ => []
  end.

(** A [dict] with string keys: insertion-ordered, and assigning to a key
    that is present keeps the key's place and replaces its value. *)
Definition dict (V : Type) : Type := list (string * V).

Fixpoint setitem {V : Type} (d : dict V) (k : string) (v : V) : dict V :=
  match d with
  | [] => [(k, v)]
  | (k', v') :: d' =>
      if String.eqb k' k then (k', v) :: d' else (k', v') :: setitem d' k v
  end.

(** [d.get(k)]: the value under a key, if the key is present. *)
Fixpoint getitem {V : Type} (d : dict V) (k : string) : option V :=
  match d with
  | [] => None
  | (k', v') :: d' => if String.eqb k' k then Some v' else getitem d' k
  end.

Definition items {V : Type} (d : dict V) : list (string * V) := d.

End Py.

Section Translator.

(** ** What lies outside the repository's translator module

    Leaf types of [openqasm.ast] and of qiskit; the translator only moves
    their values around. *)

(** [openqasm.ast.Span], the source location of a node. *)
Variable Span : Type.
(** [openqasm.ast.Expression]. *)
Variable Expression : Type.
(** A qubit operand of a statement ([Identifier], [IndexIdentifier], ...). *)
Variable Operand : Type.
(** [openqasm.ast.QuantumGateModifier]. *)
Variable QuantumGateModifier : Type.
(** [openqasm.ast.ClassicalType]. *)
Variable ClassicalType : Type.
(** The classical values an expression evaluates to, other than [int]
    (reals, booleans, durations, strings). *)
Variable Classical : Type.
(** A qubit handle, as the identifier resolver gives them. *)
Variable Qubit : Type.

(** ** AST nodes *)

(** [Identifier], [Qubit] and [ClassicalArgument] nodes: the translator
    reads their [name] and [span] only. *)
Record Named : Type := mkNamed { name : string; span : Span }.

(** The statements reaching [_process_Statement]. [OtherNode] stands for an
    instance of any other node class, kept with the class's [__name__]. *)
Inductive Statement : Type :=
| QubitDeclaration (sp : Span) (qubit : Named) (designator : option Expression)
| ConstantDeclaration (sp : Span) (identifier : Named) (init_expression : option Expression)
| ClassicalDeclaration (sp : Span) (type_ : ClassicalType) (identifier : Named)
    (init_expression : option Expression)
| QuantumReset (sp : Span) (qubits : list Operand)
| QuantumGate (sp : Span) (modifiers : list QuantumGateModifier) (gname : string)
    (arguments : list Expression) (qubits : list Operand)
| QuantumGateDefinition (sp : Span) (gname : string) (arguments : list Named)
    (qubits : list Named) (body : list Statement)
| QuantumPhase (sp : Span) (quantum_gate_modifiers : list QuantumGateModifier)
    (argument : Expression) (qubits : list Operand)
| OtherNode (class_name : string).

(** [type(statement).__name__]. *)
Definition type_name (statement : Statement) : string :=
  match statement with
  | QubitDeclaration _ _ _ => "QubitDeclaration"
  | ConstantDeclaration _ _ _ => "ConstantDeclaration"
  | ClassicalDeclaration _ _ _ _ => "ClassicalDeclaration"
  | QuantumReset _ _ => "QuantumReset"
  | QuantumGate _ _ _ _ _ => "QuantumGate"
  | QuantumGateDefinition _ _ _ _ _ => "QuantumGateDefinition"
  | QuantumPhase _ _ _ _ => "QuantumPhase"
  | OtherNode class_name => class_name
  end.

Record Program : Type := mkProgram { statements : list Statement }.

(** ** Values, gates and circuits

    One mutual family: a context value may be a gate constructor, which
    holds the circuit of a gate definition; a circuit holds gates; a gate
    made by [QuantumCircuit.to_gate] holds a circuit and values. *)

Inductive value : Type :=
| VInt (z : Z)
| VClassical (c : Classical)
| VParameter (pname : string)                  (* qiskit [Parameter(name)] *)
| VRegister (reg_size : value) (reg_name : string)  (* [QuantumRegister(size, name)] *)
| VCallable (f : callable)
with callable : Type :=
| library_gate (lname : string)                (* a constructor of the gate library *)
| quantum_gate (circuit : QuantumCircuit) (argnames : list string)
    (* the closure built by [_process_QuantumGateDefinition] *)
with QuantumCircuit : Type :=
| mkCircuit (num_qubits : nat) (qregs : list value) (data : list instruction)
    (global_phase : value)
with instruction : Type :=
| IGate (g : Gate) (qargs : list qarg)
| IReset (q : qarg)
with Gate : Type :=
| GLibrary (lname : string) (params : list value)
| GCircuit (definition : QuantumCircuit) (parameter_map : option (list (string * value)))
    (* [QuantumCircuit.to_gate(parameter_map)] *)
| GModified (modifier : QuantumGateModifier) (base : Gate)
with qarg : Type :=
| QOne (q : Qubit)
| QMany (qs : list Qubit).

Definition num_qubits (c : QuantumCircuit) : nat := let '(mkCircuit n _ _ _) := c in n.
Definition qregs (c : QuantumCircuit) : list value := let '(mkCircuit _ r _ _) := c in r.
Definition data (c : QuantumCircuit) : list instruction := let '(mkCircuit _ _ d _) := c in d.
Definition global_phase (c : QuantumCircuit) : value := let '(mkCircuit _ _ _ p) := c in p.

(** ** Exceptions and results *)

Inductive exception : Type :=
| UnsupportedFeature (feature : string)
| UnresolvedSymbol (symbol : string) (location : Span)
| DuplicateDeclaration (symbol : string) (location : Span)
| InvalidOperand
| AttributeError
| TypeError
| IndexError
| RecursionError.

Inductive result (A : Type) : Type :=
| Return (a : A)
| Raise (e : exception).
Arguments Return {A} a.
Arguments Raise {A} e.


(** ** Symbol context *)

(** Modelled from the spec: [openqasm/translator/context.py] (class
    [OpenQASMContext]) is not among the sources. The spec (sections 3, 4.2,
    6 and 7) gives it three operations. A symbol is either declared but
    undefined or defined with a value; [declare_symbol] and [add_symbol]
    refuse to overwrite a defined symbol (DuplicateDeclaration);
    [context_lookup] fails with UnresolvedSymbol on a name that has no value
    and falls through to the gate library for a name that is not bound at
    all. Every entry keeps the source location it was made at. *)
Inductive entry : Type :=
| Declared (location : Span)
| Defined (v : value) (location : Span).

Abbreviation OpenQASMContext := (gmap string entry).

(** The name to constructor table of built-in gates (spec section 6). *)
Variable gate_library : string -> option value.

(** [OpenQASMContext()]. *)
Definition new_context : OpenQASMContext := ∅.

(** [context.declare_symbol(symbol, location)]. *)
Definition declare_symbol (symbol : string) (location : Span) (ctx : OpenQASMContext)
  : result OpenQASMContext :=
  match ctx !! symbol with
  | Some (Defined _ _) => Raise (DuplicateDeclaration symbol location)
  | _ => Return (<[symbol := Declared location]> ctx)
  end.

(** [context.add_symbol(symbol, value, location)]. *)
Definition add_symbol (symbol : string) (v : value) (location : Span) (ctx : OpenQASMContext)
  : result OpenQASMContext :=
  match ctx !! symbol with
  | Some (Defined _ _) => Raise (DuplicateDeclaration symbol location)
  | _ => Return (<[symbol := Defined v location]> ctx)
  end.

(** [context.lookup(symbol, location)]. *)
Definition context_lookup (symbol : string) (location : Span) (ctx : OpenQASMContext)
  : result value :=
  match ctx !! symbol with
  | Some (Defined v _) => Return v
  | Some (Declared _) => Raise (UnresolvedSymbol symbol location)
  | None =>
      match gate_library symbol with
      | Some v => Return v
      | None => Raise (UnresolvedSymbol symbol location)
      end
  end.

(** [copy.deepcopy(context)]: the copy shares nothing with the original.
    Contexts are values here, so the copy is the context itself and later
    updates of the copy are updates of another variable. *)
Definition deepcopy (ctx : OpenQASMContext) : OpenQASMContext := ctx.

(** ** Collaborators of the translator

    [compute_expression], [get_identifier] and [apply_modifier] live in
    modules that are not among the sources; the translator is embedded over
    any such three functions. They read the context and either return or
    raise. *)

(** [openqasm.translator.expressions.compute_expression]. *)
Variable compute_expression : Expression -> OpenQASMContext -> result value.
(** [openqasm.translator.identifiers.get_identifier]: the qubits an operand
    denotes, as a Python list. *)
Variable get_identifier : Operand -> OpenQASMContext -> result (list Qubit).
(** [openqasm.translator.modifiers.apply_modifier]. *)
Variable apply_modifier : Gate -> QuantumGateModifier -> OpenQASMContext -> result Gate.
(** Calling a constructor of the gate library with evaluated arguments. *)
Variable library_call : string -> list value -> result Gate.
(** Python's [+] between the circuit's global phase and an evaluated phase. *)
Variable py_add : value -> value -> result value.

(** ** The circuit sink

    Modelled from the spec: qiskit's [QuantumCircuit] is an external
    collaborator. Section 3 gives its state (registers, an append-only list
    of operations, a global phase) and section 6 the operations consumed.
    The checks qiskit itself makes on a register or an instruction are not
    part of this development: every sink operation succeeds. *)

(** [QuantumCircuit(n, global_phase=p)]; [QuantumCircuit()] is
    [new_circuit 0 (VInt 0)]. *)
Definition new_circuit (n : nat) (p : value) : QuantumCircuit := mkCircuit n [] [] p.

(** [circuit.add_register(register)]. *)
Definition add_register (register : value) (c : QuantumCircuit) : QuantumCircuit :=
  mkCircuit (num_qubits c) (qregs c ++ [register]) (data c) (global_phase c).

(** [circuit.append(gate, qargs=qargs)]. *)
Definition append (gate : Gate) (qargs : list qarg) (c : QuantumCircuit) : QuantumCircuit :=
  mkCircuit (num_qubits c) (qregs c) (data c ++ [IGate gate qargs]) (global_phase c).

(** [circuit.reset(qubit)]. *)
Definition reset (q : qarg) (c : QuantumCircuit) : QuantumCircuit :=
  mkCircuit (num_qubits c) (qregs c) (data c ++ [IReset q]) (global_phase c).

(** [circuit.global_phase = p]. *)
Definition set_global_phase (p : value) (c : QuantumCircuit) : QuantumCircuit :=
  mkCircuit (num_qubits c) (qregs c) (data c) p.

(** [circuit.to_gate(parameter_map)]. *)
Definition to_gate (parameter_map : option (list (string * value))) (c : QuantumCircuit) : Gate :=
  GCircuit c parameter_map.

(** ** Handlers as store transformers *)

(** The two objects every handler receives and mutates. *)
Record store : Type := mkStore { circuit : QuantumCircuit; context : OpenQASMContext }.

(** A computation runs on a store and leaves a store, whether it returns or
    raises. *)
Definition M (A : Type) : Type := store -> store * result A.

Definition ret {A : Type} (a : A) : M A := fun s => (s, Return a).

Definition raise {A : Type} (e : exception) : M A := fun s => (s, Raise e).

Definition bind {A B : Type} (m : M A) (k : A -> M B) : M B :=
  fun s =>
    match m s with
    | (s', Return a) => k a s'
    | (s', Raise e) => (s', Raise e)
    end.

Notation "x <- m ;; k" := (bind m (fun x => k))
  (at level 100, m at next level, right associativity).
Notation "m ;;; k" := (bind m (fun _ => k))
  (at level 100, right associativity).

(** A collaborator that reads the context. *)
Definition reading {A : Type} (f : OpenQASMContext -> result A) : M A :=
  fun s => (s, f (context s)).

(** A context method that updates the context or raises. *)
Definition on_context (f : OpenQASMContext -> result OpenQASMContext) : M unit :=
  fun s =>
    match f (context s) with
    | Return ctx' => (mkStore (circuit s) ctx', Return tt)
    | Raise e => (s, Raise e)
    end.

(** A sink method. *)
Definition on_circuit (f : QuantumCircuit -> QuantumCircuit) : M unit :=
  fun s => (mkStore (f (circuit s)) (context s), Return tt).

(** [for x in l: body(x)]. *)
Fixpoint for_each {A : Type} (l : list A) (body : A -> M unit) : M unit :=
  match l with
  | [] => ret tt
  | x :: l' => body x ;;; for_each l' body
  end.

(** [[f(x) for x in l]]. *)
Fixpoint comprehension {A B : Type} (f : A -> M B) (l : list A) : M (list B) :=
  match l with
  | [] => ret []
  | x :: l' => y <- f x ;; ys <- comprehension f l' ;; ret (y :: ys)
  end.

(** [for m in l: g = step(g, m)]. *)
Fixpoint for_fold {A B : Type} (step : B -> A -> M B) (l : list A) (g : B) : M B :=
  match l with
  | [] => ret g
  | m :: l' => g' <- step g m ;; for_fold step l' g'
  end.

(** ** [OpenQASM3Translator] *)

Definition NODE_PROCESSING_FUNCTIONS_PREFIX : string := "_process_".

(** The functions the class defines, in the order of the source. *)
Inductive method : Type :=
| m_translate
| m_process_Statement
| m_supported_features
| m_process_QubitDeclaration
| m_process_ConstantDeclaration
| m_process_ClassicalDeclaration
| m_process_QuantumReset
| m_process_QuantumGate
| m_process_QuantumGateDefinition
| m_process_QuantumPhase.

(** The [__name__] of a function of the class. *)
Definition method_name (m : method) : string :=
  match m with
  | m_translate => "translate"
  | m_process_Statement => "_process_Statement"
  | m_supported_features => "supported_features"
  | m_process_QubitDeclaration => "_process_QubitDeclaration"
  | m_process_ConstantDeclaration => "_process_ConstantDeclaration"
  | m_process_ClassicalDeclaration => "_process_ClassicalDeclaration"
  | m_process_QuantumReset => "_process_QuantumReset"
  | m_process_QuantumGate => "_process_QuantumGate"
  | m_process_QuantumGateDefinition => "_process_QuantumGateDefinition"
  | m_process_QuantumPhase => "_process_QuantumPhase"
  end.

(** What a name of the class is bound to. *)
Inductive attribute : Type :=
| Function (m : method)
| StringConstant (text : string).

(** The attributes the class body defines, in the order of the source.
    The attributes inherited from [object] are left out: their names start
    with two underscores, so none of them is a name that starts with
    [NODE_PROCESSING_FUNCTIONS_PREFIX], and none of them is a Python
    function. *)
Definition class_attributes : list (string * attribute) :=
  ("NODE_PROCESSING_FUNCTIONS_PREFIX", StringConstant NODE_PROCESSING_FUNCTIONS_PREFIX)
  :: List.map (fun m => (method_name m, Function m))
       [ m_translate; m_process_Statement; m_supported_features;
         m_process_QubitDeclaration; m_process_ConstantDeclaration;
         m_process_ClassicalDeclaration; m_process_QuantumReset; m_process_QuantumGate;
         m_process_QuantumGateDefinition; m_process_QuantumPhase ].

(** [getattr(OpenQASM3Translator, name)], when the class has the name. *)
Definition getattr (attribute_name : string) : option attribute :=
  match List.find (fun p => String.eqb (fst p) attribute_name) class_attributes with
  | Some p => Some (snd p)
  | None => None
  end.

(** [hasattr(OpenQASM3Translator, name)]. *)
Definition hasattr (attribute_name : string) : bool :=
  match getattr attribute_name with Some _ => true | None => false end.

(** [inspect.isfunction]. *)
Definition isfunction (a : attribute) : bool :=
  match a with Function _ => true | StringConstant _ => false end.

(** Insertion into a list of members sorted by name. *)
Fixpoint insert_member (x : string * attribute) (l : list (string * attribute))
  : list (string * attribute) :=
  match l with
  | [] => [x]
  | y :: l' => if String.leb (fst x) (fst y) then x :: y :: l' else y :: insert_member x l'
  end.

(** [inspect.getmembers(OpenQASM3Translator, predicate)]: the (name, value)
    pairs of the members that satisfy the predicate, sorted by name. *)
Definition getmembers (predicate : attribute -> bool) : list (string * attribute) :=
  List.fold_right insert_member []
    (List.filter (fun p => predicate (snd p)) class_attributes).

(** [OpenQASM3Translator.supported_features()]. *)
Definition supported_features : list string :=
  let prefix := NODE_PROCESSING_FUNCTIONS_PREFIX in
  List.map (fun '(method_name, method) => Py.str_from (String.length prefix) method_name)
    (List.filter (fun '(method_name, method) => Py.startswith method_name prefix)
       (getmembers isfunction)).

(** [_process_QubitDeclaration]. *)
Definition _process_QubitDeclaration (statement : Statement) : M unit :=
  match statement with
  | QubitDeclaration sp qubit designator =>
      quantum_register_size <-
        match designator with
        | None => ret (VInt 1)
        | Some d => reading (compute_expression d)
        end ;;
      let register := VRegister quantum_register_size (name qubit) in
      on_circuit (add_register register) ;;;
      on_context (add_symbol (name qubit) register sp)
  | _ => raise AttributeError
  end.

(** [_process_ConstantDeclaration]. *)
Definition _process_ConstantDeclaration (statement : Statement) : M unit :=
  match statement with
  | ConstantDeclaration sp identifier init_expression =>
      match init_expression with
      | None => on_context (declare_symbol (name identifier) (span identifier))
      | Some e =>
          v <- reading (compute_expression e) ;;
          on_context (add_symbol (name identifier) v sp)
      end
  | _ => raise AttributeError
  end.

(** [_process_ClassicalDeclaration]. *)
Definition _process_ClassicalDeclaration (statement : Statement) : M unit :=
  match statement with
  | ClassicalDeclaration sp type_ identifier init_expression =>
      let name_ := name identifier in
      match init_expression with
      | None => on_context (declare_symbol name_ (span identifier))
      | Some e =>
          v <- reading (compute_expression e) ;;
          on_context (add_symbol name_ v sp)
      end
  | _ => raise AttributeError
  end.

(** [_process_QuantumReset]. *)
Definition _process_QuantumReset (statement : Statement) : M unit :=
  match statement with
  | QuantumReset sp qubits =>
      for_each qubits (fun qubit =>
        q <- reading (get_identifier qubit) ;;
        on_circuit (reset (QMany q)))
  | _ => raise AttributeError
  end.

(** The dictionary [{argnames[i]: pvalue for i, pvalue in enumerate(parameters)}]
    of the closure [quantum_gate]; [argnames[i]] raises IndexError past the
    end of the list. *)
Fixpoint parameter_dict (argnames : list string) (indexed : list (nat * value))
    (d : Py.dict value) : result (Py.dict value) :=
  match indexed with
  | [] => Return d
  | (i, pvalue) :: rest =>
      match nth_error argnames i with
      | Some n => parameter_dict argnames rest (Py.setitem d n pvalue)
      | None => Raise IndexError
      end
  end.

(** Calling what [context.lookup] returned with [*arguments]. *)
Definition call (f : value) (parameters : list value) : result Gate :=
  match f with
  | VCallable (library_gate lname) => library_call lname parameters
  | VCallable (quantum_gate circuit argnames) =>
      match parameter_dict argnames (Py.enumerate parameters) [] with
      | Return d => Return (to_gate (Some d) circuit)
      | Raise e => Raise e
      end
  | _ => Raise TypeError
  end.

(** [_process_QuantumGate]. *)
Definition _process_QuantumGate (statement : Statement) : M unit :=
  match statement with
  | QuantumGate sp modifiers gname arguments qubits =>
      arguments_ <- comprehension (fun arg => reading (compute_expression arg)) arguments ;;
      constructor <- reading (context_lookup gname sp) ;;
      quantum_gate_ <- reading (fun _ => call constructor arguments_) ;;
      qubits_ <- comprehension (fun qubit => reading (get_identifier qubit)) qubits ;;
      quantum_gate_ <-
        for_fold (fun g modifier => reading (apply_modifier g modifier)) modifiers quantum_gate_ ;;
      on_circuit (append quantum_gate_ (List.map QMany qubits_))
  | _ => raise AttributeError
  end.

(** [{qn: qi for qi, qn in enumerate(qubit_names)}]. *)
Definition qubit_indices_of (qubit_names : list string) : Py.dict nat :=
  List.fold_left (fun d '(qi, qn) => Py.setitem d qn qi) (Py.enumerate qubit_names) [].

(** The store the body of a gate definition is translated on:
    [gate_definition = QuantumCircuit(len(qubit_names))] and
    [gate_definition_context = deepcopy(context)]. *)
Definition gate_definition_store (qubits : list Named) (s : store) : store :=
  let qubit_names := List.map name qubits in
  mkStore (new_circuit (List.length qubit_names) (VInt 0)) (deepcopy (context s)).

(** The two loops that bind the qubit names to their indices and the
    argument names to fresh [Parameter]s in the copied context. *)
Definition declare_gate_parameters (arguments qubits : list Named) : M unit :=
  let qubit_names := List.map name qubits in
  let qubit_indices := qubit_indices_of qubit_names in
  let argument_names := List.map name arguments in
  for_each (Py.zip qubits (Py.items qubit_indices)) (fun '(qubit, (qn, qi)) =>
    on_context (add_symbol qn (VInt (Z.of_nat qi)) (span qubit))) ;;;
  for_each (Py.zip arguments argument_names) (fun '(arg, argname) =>
    on_context (add_symbol argname (VParameter argname) (span arg))).

(** The part of [_process_QuantumGateDefinition] that runs on the store of
    the definition: the parameters, then the body, statement by statement
    through the dispatcher [process_Statement]. *)
Definition translate_gate_body (process_Statement : Statement -> M unit)
    (arguments qubits : list Named) (body : list Statement) : M unit :=
  declare_gate_parameters arguments qubits ;;;
  for_each body process_Statement.

(** [_process_QuantumGateDefinition]. The enclosing store [s] is read for
    the copy and written by the last line only. *)
Definition _process_QuantumGateDefinition (process_Statement : Statement -> M unit)
    (statement : Statement) : M unit :=
  match statement with
  | QuantumGateDefinition sp gname arguments qubits body =>
      let quantum_gate_name := gname in
      let argument_names := List.map name arguments in
      fun s =>
        match translate_gate_body process_Statement arguments qubits body
                (gate_definition_store qubits s) with
        | (s', Return _) =>
            on_context
              (add_symbol quantum_gate_name
                 (VCallable (quantum_gate (circuit s') argument_names)) sp) s
        | (_, Raise e) => (s, Raise e)
        end
  | _ => raise AttributeError
  end.

(** [sum((get_identifier(qubit, context) for qubit in qubits), start=[])]. *)
Fixpoint sum_identifiers (qubits : list Operand) (start : list Qubit) : M (list Qubit) :=
  match qubits with
  | [] => ret start
  | qubit :: rest =>
      q <- reading (get_identifier qubit) ;;
      sum_identifiers rest (start ++ q)
  end.

(** [_process_QuantumPhase]. *)
Definition _process_QuantumPhase (statement : Statement) : M unit :=
  match statement with
  | QuantumPhase sp quantum_gate_modifiers argument qubits =>
      phase <- reading (compute_expression argument) ;;
      qubits_ <- sum_identifiers qubits [] ;;
      match qubits_ with
      | [] =>
          fun s =>
            match py_add (global_phase (circuit s)) phase with
            | Return p => on_circuit (set_global_phase p) s
            | Raise e => (s, Raise e)
            end
      | _ :: _ =>
          let phased_gate := to_gate None (new_circuit 1 phase) in
          phased_gate <-
            for_fold (fun g modifier => reading (apply_modifier g modifier))
              quantum_gate_modifiers phased_gate ;;
          on_circuit (append phased_gate (List.map QOne qubits_))
      end
  | _ => raise AttributeError
  end.

(** Calling a function of the class with [(statement, circuit, context)];
    [process_Statement] is the dispatcher, which two of them call.
    [supported_features] and [translate] do not take three arguments. *)
Definition call_method (process_Statement : Statement -> M unit) (m : method)
    (statement : Statement) : M unit :=
  match m with
  | m_process_ClassicalDeclaration => _process_ClassicalDeclaration statement
  | m_process_ConstantDeclaration => _process_ConstantDeclaration statement
  | m_process_QuantumGate => _process_QuantumGate statement
  | m_process_QuantumGateDefinition => _process_QuantumGateDefinition process_Statement statement
  | m_process_QuantumPhase => _process_QuantumPhase statement
  | m_process_QuantumReset => _process_QuantumReset statement
  | m_process_QubitDeclaration => _process_QubitDeclaration statement
  | m_process_Statement => process_Statement statement
  | m_supported_features | m_translate => raise TypeError
  end.

(** [getattr(OpenQASM3Translator, name)(statement, circuit, context)]: a
    string is not callable. *)
Definition invoke (process_Statement : Statement -> M unit) (a : attribute)
    (statement : Statement) : M unit :=
  match a with
  | Function m => call_method process_Statement m statement
  | StringConstant _ => raise TypeError
  end.

(** [_process_Statement]. [depth] is the number of nested calls of the
    dispatcher that the Python stack still allows: the dispatcher calls
    itself through [_process_QuantumGateDefinition] and, for a node whose
    class is named [Statement], directly; at the limit Python raises
    RecursionError. *)
Fixpoint _process_Statement (depth : nat) (statement : Statement) : M unit :=
  match depth with
  | O => raise RecursionError
  | S depth' =>
      let statement_type_name := type_name statement in
      let processing_function_name :=
        String.append NODE_PROCESSING_FUNCTIONS_PREFIX statement_type_name in
      if negb (hasattr processing_function_name)
      then raise (UnsupportedFeature statement_type_name)
      else
        match getattr processing_function_name with
        | Some a => invoke (_process_Statement depth') a statement
        | None => raise AttributeError
        end
  end.

(** [translate]: the store it ends with and what it returns. *)
Definition translate_store (depth : nat) (ast : Program) : store * result unit :=
  let circuit_ := new_circuit 0 (VInt 0) in
  let context_ := new_context in
  for_each (statements ast) (_process_Statement depth) (mkStore circuit_ context_).

(** [OpenQASM3Translator.translate]. *)
Definition translate (depth : nat) (ast : Program) : result QuantumCircuit :=
  match translate_store depth ast with
  | (s, Return _) => Return (circuit s)
  | (_, Raise e) => Raise e
  end.

(** ** Vocabulary of the properties

    The pure counterparts of the loops of the handlers, used to say what a
    statement's operands, arguments and modifiers evaluate to. *)

(** The evaluated arguments of a gate call, in order. *)
Fixpoint evaluated (arguments : list Expression) (ctx : OpenQASMContext)
  : result (list value) :=
  match arguments with
  | [] => Return []
  | arg :: rest =>
      match compute_expression arg ctx with
      | Raise e => Raise e
      | Return v =>
          match evaluated rest ctx with
          | Raise e => Raise e
          | Return vs => Return (v :: vs)
          end
      end
  end.

(** The resolved operands of a statement, one list of qubits per operand. *)
Fixpoint resolved (qubits : list Operand) (ctx : OpenQASMContext)
  : result (list (list Qubit)) :=
  match qubits with
  | [] => Return []
  | qubit :: rest =>
      match get_identifier qubit ctx with
      | Raise e => Raise e
      | Return q =>
          match resolved rest ctx with
          | Raise e => Raise e
          | Return qs => Return (q :: qs)
          end
      end
  end.

(** A gate wrapped by each modifier of a list, the first one innermost. *)
Fixpoint wrapped (modifiers : list QuantumGateModifier) (g : Gate) (ctx : OpenQASMContext)
  : result Gate :=
  match modifiers with
  | [] => Return g
  | modifier :: rest =>
      match apply_modifier g modifier ctx with
      | Raise e => Raise e
      | Return g' => wrapped rest g' ctx
      end
  end.

(** The size a qubit declaration asks for. *)
Definition declared_size (designator : option Expression) (ctx : OpenQASMContext)
  : result value :=
  match designator with
  | None => Return (VInt 1)
  | Some d => compute_expression d ctx
  end.

(** [ctx'] keeps every value that [ctx] has. *)
Definition keeps (ctx ctx' : OpenQASMContext) : Prop :=
  forall n v l, ctx !! n = Some (Defined v l) -> ctx' !! n = Some (Defined v l).

(** The context holds a value for the name. *)
Definition has_value (ctx : OpenQASMContext) (n : string) : bool :=
  match ctx !! n with
  | Some (Defined _ _) => true
  | _ => false
  end.

(** What a declaration with an optional initializer does to a store: the
    binding discipline the spec gives for constants. *)
Definition binds_like_a_constant (sp : Span) (identifier : Named)
    (init_expression : option Expression) (s : store) (out : store * result unit) : Prop :=
  circuit (fst out) = circuit s /\
  match init_expression with
  | None =>
      (* declared, without a value *)
      if has_value (context s) (name identifier)
      then out = (s, Raise (DuplicateDeclaration (name identifier) (span identifier)))
      else snd out = Return tt /\
           context (fst out) = <[name identifier := Declared (span identifier)]> (context s)
  | Some e =>
      match compute_expression e (context s) with
      | Raise err => out = (s, Raise err)
      | Return v =>
          (* bound to the evaluated initializer *)
          if has_value (context s) (name identifier)
          then out = (s, Raise (DuplicateDeclaration (name identifier) sp))
          else snd out = Return tt /\
               context (fst out) = <[name identifier := Defined v sp]> (context s)
      end
  end.

(** A computation that never drops or changes a value of the context. *)
Definition keeping {A : Type} (m : M A) : Prop :=
  forall s, keeps (context s) (context (fst (m s))).

(** ** The store monad *)

Lemma bind_Return {A B : Type} (m : M A) (k : A -> M B) s s' a :
  m s = (s', Return a) -> bind m k s = k a s'.
Proof. intros H. unfold bind. now rewrite H. Qed.

Lemma bind_Raise {A B : Type} (m : M A) (k : A -> M B) s s' e :
  m s = (s', Raise e) -> bind m k s = (s', Raise e).
Proof. intros H. unfold bind. now rewrite H. Qed.

Lemma bind_inv_Return {A B : Type} (m : M A) (k : A -> M B) s s' b :
  bind m k s = (s', Return b) ->
  exists s1 a, m s = (s1, Return a) /\ k a s1 = (s', Return b).
Proof.
  unfold bind. destruct (m s) as [s1 [a | e]]; intros H.
  - eauto.
  - discriminate.
Qed.

Lemma for_each_app {A : Type} (f : A -> M unit) (pre post : list A) s :
  for_each (pre ++ post) f s =
  match for_each pre f s with
  | (s', Return _) => for_each post f s'
  | (s', Raise e) => (s', Raise e)
  end.
Proof.
  revert s. induction pre as [| x pre IH]; intros s; simpl.
  - reflexivity.
  - unfold bind. destruct (f x s) as [s1 [[] | e]]; [apply IH | reflexivity].
Qed.


(** ** Dispatch by name *)

Lemma supported_features_eq :
  supported_features =
  [ "ClassicalDeclaration"; "ConstantDeclaration"; "QuantumGate"; "QuantumGateDefinition";
    "QuantumPhase"; "QuantumReset"; "QubitDeclaration"; "Statement" ].
Proof. reflexivity. Qed.

Lemma eqb_append_prefix (p a b : string) :
  String.eqb (String.append p a) (String.append p b) = String.eqb a b.
Proof.
  induction p as [| c p IH]; [reflexivity |].
  change (String.append (String c p) a) with (String c (String.append p a)).
  change (String.append (String c p) b) with (String c (String.append p b)).
  cbn [String.eqb]. now rewrite Ascii.eqb_refl.
Qed.

(** A name of the class is the prefixed [tag] exactly when it starts with
    the prefix and goes on with [tag]. *)
Lemma attribute_name_prefixed (tag : string) :
  List.Forall
    (fun p : string * attribute =>
       String.eqb (fst p) (String.append NODE_PROCESSING_FUNCTIONS_PREFIX tag) =
       Py.startswith (fst p) NODE_PROCESSING_FUNCTIONS_PREFIX &&
       String.eqb (Py.str_from (String.length NODE_PROCESSING_FUNCTIONS_PREFIX) (fst p)) tag)
    class_attributes.
Proof.
  unfold class_attributes. cbn [List.map method_name].
  repeat apply List.Forall_cons; try apply List.Forall_nil; cbn [fst];
    try (cbv [String.append NODE_PROCESSING_FUNCTIONS_PREFIX]; reflexivity);
    match goal with
    | |- String.eqb ?n _ = _ =>
        let rest := eval vm_compute in (Py.str_from 9 n) in
        change n with (String.append NODE_PROCESSING_FUNCTIONS_PREFIX rest) at 1;
        rewrite eqb_append_prefix; reflexivity
    end.
Qed.

(** The attribute found under a prefixed name, as a search for the rest of
    the name among the prefixed names of the class. *)
Lemma getattr_prefixed (tag : string) :
  getattr (String.append NODE_PROCESSING_FUNCTIONS_PREFIX tag) =
  match
    List.find
      (fun p : string * attribute =>
         String.eqb (Py.str_from (String.length NODE_PROCESSING_FUNCTIONS_PREFIX) (fst p)) tag)
      (List.filter (fun p => Py.startswith (fst p) NODE_PROCESSING_FUNCTIONS_PREFIX)
         class_attributes)
  with
  | Some p => Some (snd p)
  | None => None
  end.
Proof.
  unfold getattr.
  pose proof (attribute_name_prefixed tag) as H.
  induction H as [| p l Hp _ IH]; [reflexivity |].
  cbn [List.find List.filter]. rewrite Hp.
  destruct (Py.startswith (fst p) NODE_PROCESSING_FUNCTIONS_PREFIX); cbn [andb].
  - cbn [List.find]. destruct (String.eqb _ tag); [reflexivity | exact IH].
  - exact IH.
Qed.

(** The prefixed names of the class are those of eight of its functions. *)
Lemma prefixed_attributes :
  List.filter (fun p => Py.startswith (fst p) NODE_PROCESSING_FUNCTIONS_PREFIX)
    class_attributes
  = List.map (fun m => (method_name m, Function m))
      [ m_process_Statement; m_process_QubitDeclaration; m_process_ConstantDeclaration;
        m_process_ClassicalDeclaration; m_process_QuantumReset; m_process_QuantumGate;
        m_process_QuantumGateDefinition; m_process_QuantumPhase ].
Proof. reflexivity. Qed.

Lemma prefixed_attributes_are_functions :
  List.Forall (fun p : string * attribute => exists m, p = (method_name m, Function m))
    (List.filter (fun p => Py.startswith (fst p) NODE_PROCESSING_FUNCTIONS_PREFIX)
       class_attributes).
Proof.
  rewrite prefixed_attributes. apply List.Forall_forall. intros p Hin.
  apply List.in_map_iff in Hin as (m & <- & _). now exists m.
Qed.

Lemma getattr_function (tag : string) (a : attribute) :
  getattr (String.append NODE_PROCESSING_FUNCTIONS_PREFIX tag) = Some a ->
  exists m, a = Function m /\
            method_name m = String.append NODE_PROCESSING_FUNCTIONS_PREFIX tag.
Proof.
  intros H.
  assert (Hname : exists p, In p class_attributes /\ snd p = a /\
                    fst p = String.append NODE_PROCESSING_FUNCTIONS_PREFIX tag).
  { unfold getattr in H.
    destruct (List.find _ class_attributes) as [p |] eqn:E; [| discriminate].
    injection H as <-. apply List.find_some in E as [Hin E].
    apply String.eqb_eq in E. eauto. }
  rewrite getattr_prefixed in H.
  destruct (List.find _ _) as [p |] eqn:E; [| discriminate].
  injection H as <-. apply List.find_some in E as [Hin E].
  pose proof prefixed_attributes_are_functions as F.
  rewrite List.Forall_forall in F. destruct (F p Hin) as (m & ->).
  exists m. split; [reflexivity |].
  destruct Hname as (q & Hq & Hsnd & Hfst). cbn in Hsnd.
  assert (Hq' : q = (method_name m, Function m)).
  { revert Hq Hsnd. unfold class_attributes. cbn [List.map In].
    intros Hq Hsnd.
    repeat (destruct Hq as [<- | Hq]; [cbn in Hsnd; try discriminate;
                                       injection Hsnd as <-; reflexivity |]).
    destruct Hq. }
  rewrite Hq' in Hfst. exact Hfst.
Qed.

Lemma hasattr_supported (tag : string) :
  hasattr (String.append NODE_PROCESSING_FUNCTIONS_PREFIX tag) = true <->
  In tag supported_features.
Proof.
  rewrite supported_features_eq. unfold hasattr.
  rewrite getattr_prefixed, prefixed_attributes.
  cbn -[String.eqb].
  repeat
    match goal with
    | |- context [String.eqb ?a tag] =>
        destruct (String.eqb_spec a tag) as [<- | ?]; [tauto |]
    end.
  split; [discriminate | intuition congruence].
Qed.

Lemma dispatch_unsupported depth statement s :
  hasattr (String.append NODE_PROCESSING_FUNCTIONS_PREFIX (type_name statement)) = false ->
  _process_Statement (S depth) statement s =
  (s, Raise (UnsupportedFeature (type_name statement))).
Proof. intros H. cbn [_process_Statement]. now rewrite H. Qed.

Lemma dispatch_supported depth statement s :
  hasattr (String.append NODE_PROCESSING_FUNCTIONS_PREFIX (type_name statement)) = true ->
  exists m,
    getattr (String.append NODE_PROCESSING_FUNCTIONS_PREFIX (type_name statement))
    = Some (Function m) /\
    method_name m = String.append NODE_PROCESSING_FUNCTIONS_PREFIX (type_name statement) /\
    _process_Statement (S depth) statement s =
    call_method (_process_Statement depth) m statement s.
Proof.
  intros H. cbn [_process_Statement]. rewrite H. cbn [negb].
  unfold hasattr in H.
  destruct (getattr _) as [a |] eqn:E; [| discriminate].
  destruct (getattr_function _ E) as (m & -> & Hm).
  exists m. repeat split. exact Hm.
Qed.

(** C2. While the dispatcher has a frame to run in, a node whose class name
    has no [_process_<name>] attribute on the translator makes
    [_process_Statement] raise UnsupportedFeature carrying exactly that
    name, leaving the store as it was; a node whose class name has one
    makes it call that very function (the one named [_process_<name>]) on
    the node and the store, and its outcome is the dispatcher's outcome. *)
Theorem process_Statement_dispatch (depth : nat) (statement : Statement) (s : store) :
  let processing_function_name :=
    String.append NODE_PROCESSING_FUNCTIONS_PREFIX (type_name statement) in
  (getattr processing_function_name = None /\
   _process_Statement (S depth) statement s =
   (s, Raise (UnsupportedFeature (type_name statement))))
  \/
  (exists m,
     getattr processing_function_name = Some (Function m) /\
     method_name m = processing_function_name /\
     _process_Statement (S depth) statement s =
     call_method (_process_Statement depth) m statement s).
Proof.
  intros name_.
  destruct (hasattr name_) eqn:H.
  - right. exact (dispatch_supported depth statement s H).
  - left. split.
    + unfold hasattr in H. now destruct (getattr name_).
    + now apply dispatch_unsupported.
Qed.

(** C3. [supported_features()] lists a class name exactly when the
    translator has an attribute [_process_<name>]; and a node of a listed
    class is dispatched to the function of that name, while a node of a
    class that is not listed is rejected with UnsupportedFeature. *)
Theorem supported_features_exact (tag : string) :
  (In tag supported_features <->
   hasattr (String.append NODE_PROCESSING_FUNCTIONS_PREFIX tag) = true)
  /\
  (forall (statement : Statement) (depth : nat) (s : store),
     type_name statement = tag ->
     if ListDec.In_dec String.string_dec tag supported_features
     then exists m,
            method_name m = String.append NODE_PROCESSING_FUNCTIONS_PREFIX tag /\
            _process_Statement (S depth) statement s =
            call_method (_process_Statement depth) m statement s
     else _process_Statement (S depth) statement s =
          (s, Raise (UnsupportedFeature tag))).
Proof.
  split; [symmetry; apply hasattr_supported |].
  intros statement depth s <-.
  destruct (ListDec.In_dec _ _ _) as [Hin | Hout].
  - apply hasattr_supported in Hin.
    destruct (dispatch_supported depth statement s Hin) as (m & _ & Hm & E).
    exists m. split; [exact Hm | exact E].
  - apply dispatch_unsupported.
    destruct (hasattr _) eqn:H; [| reflexivity].
    now apply hasattr_supported in H.
Qed.

(** C9. [supported_features()] is the seven handled node classes and,
    eighth, "Statement", which comes from the dispatcher's own name
    [_process_Statement]. The function found for a node whose class is
    named "Statement" is the dispatcher, so dispatching such a node calls
    the dispatcher again on the same node with one frame less, and ends in
    RecursionError at every depth. *)
Theorem supported_features_lists_Statement :
  supported_features =
  [ "ClassicalDeclaration"; "ConstantDeclaration"; "QuantumGate"; "QuantumGateDefinition";
    "QuantumPhase"; "QuantumReset"; "QubitDeclaration"; "Statement" ]
  /\ In "Statement" supported_features
  /\ getattr (String.append NODE_PROCESSING_FUNCTIONS_PREFIX "Statement")
     = Some (Function m_process_Statement)
  /\ (forall depth s,
        _process_Statement (S depth) (OtherNode "Statement") s =
        _process_Statement depth (OtherNode "Statement") s)
  /\ (forall depth s,
        _process_Statement depth (OtherNode "Statement") s = (s, Raise RecursionError)).
Proof.
  assert (Hstep : forall depth s,
             _process_Statement (S depth) (OtherNode "Statement") s =
             _process_Statement depth (OtherNode "Statement") s) by reflexivity.
  repeat split; try reflexivity.
  - rewrite supported_features_eq. cbn. tauto.
  - intros depth s. induction depth as [| depth IH]; [reflexivity |].
    now rewrite Hstep.
Qed.

(** ** Declarations *)

Lemma add_symbol_eq symbol v location (ctx : OpenQASMContext) :
  add_symbol symbol v location ctx =
  if has_value ctx symbol
  then Raise (DuplicateDeclaration symbol location)
  else Return (<[symbol := Defined v location]> ctx).
Proof.
  unfold add_symbol, has_value. now destruct (ctx !! symbol) as [[l | w l] |].
Qed.

Lemma declare_symbol_eq symbol location (ctx : OpenQASMContext) :
  declare_symbol symbol location ctx =
  if has_value ctx symbol
  then Raise (DuplicateDeclaration symbol location)
  else Return (<[symbol := Declared location]> ctx).
Proof.
  unfold declare_symbol, has_value. now destruct (ctx !! symbol) as [[l | w l] |].
Qed.

Lemma has_value_true (ctx : OpenQASMContext) n :
  has_value ctx n = true <-> exists v l, ctx !! n = Some (Defined v l).
Proof.
  unfold has_value. destruct (ctx !! n) as [[l | w l] |]; split;
    try discriminate; eauto; intros (? & ? & ?); discriminate.
Qed.

Lemma lookup_added symbol v location (ctx : OpenQASMContext) l :
  context_lookup symbol l (<[symbol := Defined v location]> ctx) = Return v.
Proof. unfold context_lookup. now rewrite lookup_insert_eq. Qed.

Lemma ConstantDeclaration_binds sp identifier init_expression s :
  binds_like_a_constant sp identifier init_expression s
    (_process_ConstantDeclaration (ConstantDeclaration sp identifier init_expression) s).
Proof.
  unfold binds_like_a_constant, _process_ConstantDeclaration, bind, reading, on_context.
  destruct init_expression as [e |].
  - destruct (compute_expression e (context s)) as [v | err]; [| now split].
    rewrite add_symbol_eq. destruct (has_value _ _); cbn; auto.
  - rewrite declare_symbol_eq. destruct (has_value _ _); cbn; auto.
Qed.

(** C8. A ClassicalDeclaration and a ConstantDeclaration with the same
    identifier and the same optional initializer (and the same span) have
    the same outcome on every store, whatever the type annotation of the
    former; that outcome leaves the circuit alone and follows the binding
    discipline of constants: the name is declared without a value when the
    initializer is absent, and bound to the evaluated initializer otherwise. *)
Theorem ClassicalDeclaration_like_ConstantDeclaration
    (sp : Span) (type_ : ClassicalType) (identifier : Named)
    (init_expression : option Expression) (s : store) :
  _process_ClassicalDeclaration (ClassicalDeclaration sp type_ identifier init_expression) s
  = _process_ConstantDeclaration (ConstantDeclaration sp identifier init_expression) s
  /\ binds_like_a_constant sp identifier init_expression s
       (_process_ClassicalDeclaration
          (ClassicalDeclaration sp type_ identifier init_expression) s).
Proof.
  assert (E : _process_ClassicalDeclaration
                (ClassicalDeclaration sp type_ identifier init_expression) s
              = _process_ConstantDeclaration
                  (ConstantDeclaration sp identifier init_expression) s) by reflexivity.
  split; [exact E |]. rewrite E. apply ConstantDeclaration_binds.
Qed.

(** C6. Once the size of a qubit declaration is known (1 without a
    designator, the value of the designator otherwise), the handler adds to
    the circuit exactly one register, of that size and with the declared
    name, after the registers already there, and touches nothing else of the
    circuit. It then binds the name to that register: it returns when the
    context holds no value for the name, and a lookup of the name gives the
    register; otherwise it raises DuplicateDeclaration with the register
    already added. *)
Theorem process_QubitDeclaration_allocates
    (sp : Span) (qubit : Named) (designator : option Expression) (s : store) (size : value) :
  declared_size designator (context s) = Return size ->
  let register := VRegister size (name qubit) in
  let out := _process_QubitDeclaration (QubitDeclaration sp qubit designator) s in
  (designator = None -> size = VInt 1)
  /\ qregs (circuit (fst out)) = qregs (circuit s) ++ [register]
  /\ data (circuit (fst out)) = data (circuit s)
  /\ global_phase (circuit (fst out)) = global_phase (circuit s)
  /\ num_qubits (circuit (fst out)) = num_qubits (circuit s)
  /\ (if has_value (context s) (name qubit)
      then snd out = Raise (DuplicateDeclaration (name qubit) sp)
           /\ context (fst out) = context s
      else snd out = Return tt
           /\ context (fst out) = <[name qubit := Defined register sp]> (context s)
           /\ forall l, context_lookup (name qubit) l (context (fst out)) = Return register).
Proof.
  intros Hsize register out.
  split; [intros ->; cbn in Hsize; congruence |].
  subst out. unfold _process_QubitDeclaration, bind.
  assert (E : match designator with
              | Some d => reading (compute_expression d)
              | None => ret (VInt 1)
              end s = (s, Return size)).
  { destruct designator as [d |]; cbn in *; unfold reading, ret; congruence. }
  rewrite E. unfold on_circuit, on_context. cbn [context circuit].
  rewrite add_symbol_eq.
  destruct (has_value (context s) (name qubit)); cbn; repeat split.
  intros l. apply lookup_added.
Qed.

(** ** Loops that only read the context *)

Lemma comprehension_resolved (qubits : list Operand) (s : store) :
  comprehension (fun qubit => reading (get_identifier qubit)) qubits s =
  (s, resolved qubits (context s)).
Proof.
  induction qubits as [| qubit rest IH]; [reflexivity |].
  cbn [comprehension resolved]. unfold bind at 1. unfold reading at 1.
  destruct (get_identifier qubit (context s)) as [q | e]; [| reflexivity].
  unfold bind. rewrite IH. now destruct (resolved rest (context s)).
Qed.

Lemma comprehension_evaluated (arguments : list Expression) (s : store) :
  comprehension (fun arg => reading (compute_expression arg)) arguments s =
  (s, evaluated arguments (context s)).
Proof.
  induction arguments as [| arg rest IH]; [reflexivity |].
  cbn [comprehension evaluated]. unfold bind at 1. unfold reading at 1.
  destruct (compute_expression arg (context s)) as [v | e]; [| reflexivity].
  unfold bind. rewrite IH. now destruct (evaluated rest (context s)).
Qed.

Lemma for_fold_wrapped (modifiers : list QuantumGateModifier) (g : Gate) (s : store) :
  for_fold (fun g modifier => reading (apply_modifier g modifier)) modifiers g s =
  (s, wrapped modifiers g (context s)).
Proof.
  revert g. induction modifiers as [| modifier rest IH]; intros g; [reflexivity |].
  cbn [for_fold wrapped]. unfold bind, reading at 1.
  destruct (apply_modifier g modifier (context s)) as [g' | e]; [apply IH | reflexivity].
Qed.

Lemma sum_identifiers_resolved (qubits : list Operand) (start : list Qubit) (s : store) :
  sum_identifiers qubits start s =
  (s, match resolved qubits (context s) with
      | Return qs => Return (start ++ List.concat qs)
      | Raise e => Raise e
      end).
Proof.
  revert start. induction qubits as [| qubit rest IH]; intros start.
  - cbn. now rewrite List.app_nil_r.
  - cbn [sum_identifiers resolved]. unfold bind, reading at 1.
    destruct (get_identifier qubit (context s)) as [q | e]; [| reflexivity].
    rewrite IH. destruct (resolved rest (context s)) as [qs | e]; [| reflexivity].
    cbn [List.concat]. now rewrite List.app_assoc.
Qed.

(** ** Phases *)

Lemma process_QuantumPhase_eq sp modifiers argument qubits s phase qs :
  compute_expression argument (context s) = Return phase ->
  resolved qubits (context s) = Return qs ->
  _process_QuantumPhase (QuantumPhase sp modifiers argument qubits) s =
  match List.concat qs with
  | [] =>
      match py_add (global_phase (circuit s)) phase with
      | Return p => (mkStore (set_global_phase p (circuit s)) (context s), Return tt)
      | Raise e => (s, Raise e)
      end
  | _ :: _ =>
      match wrapped modifiers (to_gate None (new_circuit 1 phase)) (context s) with
      | Return g =>
          (mkStore (append g (List.map QOne (List.concat qs)) (circuit s)) (context s),
           Return tt)
      | Raise e => (s, Raise e)
      end
  end.
Proof.
  intros Hphase Hqs.
  unfold _process_QuantumPhase, bind. unfold reading at 1. rewrite Hphase.
  rewrite sum_identifiers_resolved, Hqs. cbn [List.app].
  destruct (List.concat qs) as [| q0 rest]; [reflexivity |].
  rewrite for_fold_wrapped. now destruct (wrapped _ _ _).
Qed.

(** C1. Let the phase expression of a QuantumPhase statement evaluate to
    [phase] and its operands resolve to the lists [qs] of qubits. If the
    flattened list is empty and the sum of the circuit's global phase and
    [phase] is [p], the handler returns with the global phase set to [p]
    and the operations, the registers and the context as they were: no gate
    is appended. If the flattened list is not empty and wrapping the
    one-qubit phase gate [QuantumCircuit(1, global_phase=phase).to_gate()]
    in the listed modifiers, in order, gives [g], the handler returns with
    exactly one operation appended, the gate [g] on the flattened qubits,
    and the global phase, the registers and the context as they were. *)
Theorem process_QuantumPhase_fork
    (sp : Span) (modifiers : list QuantumGateModifier) (argument : Expression)
    (qubits : list Operand) (s : store) (phase : value) (qs : list (list Qubit)) :
  compute_expression argument (context s) = Return phase ->
  resolved qubits (context s) = Return qs ->
  let out := _process_QuantumPhase (QuantumPhase sp modifiers argument qubits) s in
  (List.concat qs = [] ->
   forall p, py_add (global_phase (circuit s)) phase = Return p ->
     snd out = Return tt
     /\ global_phase (circuit (fst out)) = p
     /\ data (circuit (fst out)) = data (circuit s)
     /\ qregs (circuit (fst out)) = qregs (circuit s)
     /\ num_qubits (circuit (fst out)) = num_qubits (circuit s)
     /\ context (fst out) = context s)
  /\
  (List.concat qs <> [] ->
   forall g, wrapped modifiers (to_gate None (new_circuit 1 phase)) (context s) = Return g ->
     snd out = Return tt
     /\ data (circuit (fst out)) = data (circuit s) ++ [IGate g (List.map QOne (List.concat qs))]
     /\ global_phase (circuit (fst out)) = global_phase (circuit s)
     /\ qregs (circuit (fst out)) = qregs (circuit s)
     /\ num_qubits (circuit (fst out)) = num_qubits (circuit s)
     /\ context (fst out) = context s).
Proof.
  intros Hphase Hqs out. subst out.
  rewrite (@process_QuantumPhase_eq sp modifiers argument qubits s phase qs Hphase Hqs).
  split.
  - intros Hflat p Hp. rewrite Hflat, Hp. cbn. repeat split.
  - intros Hflat g Hg. destruct (List.concat qs) as [| q0 rest]; [now destruct Hflat |].
    rewrite Hg. cbn. repeat split.
Qed.

(** ** What the handlers do to the context *)

Lemma keeps_refl (ctx : OpenQASMContext) : keeps ctx ctx.
Proof. now intros n v l. Qed.

Lemma keeps_trans (c1 c2 c3 : OpenQASMContext) :
  keeps c1 c2 -> keeps c2 c3 -> keeps c1 c3.
Proof. intros H12 H23 n v l H. now apply H23, H12. Qed.

Lemma keeps_insert (ctx : OpenQASMContext) symbol (x : entry) :
  has_value ctx symbol = false -> keeps ctx (<[symbol := x]> ctx).
Proof.
  intros Hfree n v l H. destruct (decide (symbol = n)) as [-> | Hne].
  - unfold has_value in Hfree. rewrite H in Hfree. discriminate.
  - now rewrite lookup_insert_ne.
Qed.

Lemma keeping_ret {A : Type} (a : A) : keeping (ret a).
Proof. intros s. apply keeps_refl. Qed.

Lemma keeping_raise {A : Type} (e : exception) : keeping (@raise A e).
Proof. intros s. apply keeps_refl. Qed.

Lemma keeping_reading {A : Type} (f : OpenQASMContext -> result A) : keeping (reading f).
Proof. intros s. apply keeps_refl. Qed.

Lemma keeping_on_circuit (f : QuantumCircuit -> QuantumCircuit) : keeping (on_circuit f).
Proof. intros s. apply keeps_refl. Qed.

Lemma keeping_add_symbol symbol v location : keeping (on_context (add_symbol symbol v location)).
Proof.
  intros s. unfold on_context. rewrite add_symbol_eq.
  destruct (has_value (context s) symbol) eqn:E; cbn.
  - apply keeps_refl.
  - now apply keeps_insert.
Qed.

Lemma keeping_declare_symbol symbol location :
  keeping (on_context (declare_symbol symbol location)).
Proof.
  intros s. unfold on_context. rewrite declare_symbol_eq.
  destruct (has_value (context s) symbol) eqn:E; cbn.
  - apply keeps_refl.
  - now apply keeps_insert.
Qed.

Lemma keeping_bind {A B : Type} (m : M A) (k : A -> M B) :
  keeping m -> (forall a, keeping (k a)) -> keeping (bind m k).
Proof.
  intros Hm Hk s. unfold bind. specialize (Hm s).
  destruct (m s) as [s1 [a | e]]; cbn in *.
  - eapply keeps_trans; [exact Hm | apply Hk].
  - exact Hm.
Qed.

Lemma keeping_for_each {A : Type} (l : list A) (body : A -> M unit) :
  (forall x, keeping (body x)) -> keeping (for_each l body).
Proof.
  intros Hbody. induction l as [| x l IH]; cbn [for_each].
  - apply keeping_ret.
  - apply keeping_bind; [apply Hbody | intros _; exact IH].
Qed.

Lemma keeping_comprehension {A B : Type} (f : A -> M B) (l : list A) :
  (forall x, keeping (f x)) -> keeping (comprehension f l).
Proof.
  intros Hf. induction l as [| x l IH]; cbn [comprehension].
  - apply keeping_ret.
  - apply keeping_bind; [apply Hf | intros y].
    apply keeping_bind; [exact IH | intros ys; apply keeping_ret].
Qed.

Lemma keeping_for_fold {A B : Type} (step : B -> A -> M B) (l : list A) (g : B) :
  (forall g x, keeping (step g x)) -> keeping (for_fold step l g).
Proof.
  intros Hstep. revert g. induction l as [| x l IH]; intros g; cbn [for_fold].
  - apply keeping_ret.
  - apply keeping_bind; [apply Hstep | intros g'; apply IH].
Qed.

Lemma keeping_sum_identifiers qubits start : keeping (sum_identifiers qubits start).
Proof.
  revert start. induction qubits as [| q rest IH]; intros start; cbn [sum_identifiers].
  - apply keeping_ret.
  - apply keeping_bind; [apply keeping_reading | intros x; apply IH].
Qed.

Create HintDb keeping.
#[local] Hint Resolve keeping_ret keeping_raise keeping_reading keeping_on_circuit
  keeping_add_symbol keeping_declare_symbol keeping_sum_identifiers : keeping.
#[local] Hint Extern 2 (keeping (bind _ _)) => apply keeping_bind; [| intros] : keeping.
#[local] Hint Extern 2 (keeping (for_each _ _)) => apply keeping_for_each; intros : keeping.
#[local] Hint Extern 2 (keeping (comprehension _ _)) =>
  apply keeping_comprehension; intros : keeping.
#[local] Hint Extern 2 (keeping (for_fold _ _ _)) => apply keeping_for_fold; intros : keeping.
#[local] Hint Extern 3 (keeping (let '(_, _) := ?p in _)) => destruct p : keeping.

Lemma keeping_declare_gate_parameters arguments qubits :
  keeping (declare_gate_parameters arguments qubits).
Proof. unfold declare_gate_parameters. auto 10 with keeping. Qed.

(** The gate-definition handler on its own store. *)
Lemma process_QuantumGateDefinition_eq process_Statement sp gname arguments qubits body s :
  _process_QuantumGateDefinition process_Statement
    (QuantumGateDefinition sp gname arguments qubits body) s =
  match translate_gate_body process_Statement arguments qubits body
          (gate_definition_store qubits s) with
  | (s', Return _) =>
      if has_value (context s) gname
      then (s, Raise (DuplicateDeclaration gname sp))
      else (mkStore (circuit s)
              (<[gname := Defined (VCallable (quantum_gate (circuit s') (List.map name arguments)))
                            sp]> (context s)),
            Return tt)
  | (_, Raise e) => (s, Raise e)
  end.
Proof.
  cbn [_process_QuantumGateDefinition].
  destruct (translate_gate_body _ _ _ _ _) as [s' [[] | e]]; [| reflexivity].
  unfold on_context. rewrite add_symbol_eq. now destruct (has_value _ _).
Qed.

Lemma keeping_process_QuantumGateDefinition process_Statement statement :
  keeping (_process_QuantumGateDefinition process_Statement statement).
Proof.
  destruct statement; try apply keeping_raise.
  intros s. rewrite process_QuantumGateDefinition_eq.
  destruct (translate_gate_body _ _ _ _ _) as [s' [[] | e]]; [| apply keeps_refl].
  destruct (has_value (context s) gname) eqn:E; cbn.
  - apply keeps_refl.
  - now apply keeps_insert.
Qed.

Lemma keeping_global_phase phase :
  keeping (fun s : store =>
             match py_add (global_phase (circuit s)) phase with
             | Return p => on_circuit (set_global_phase p) s
             | Raise e => (s, Raise e)
             end).
Proof. intros s. destruct (py_add _ _); apply keeps_refl. Qed.

Lemma keeping_process_QuantumPhase statement : keeping (_process_QuantumPhase statement).
Proof.
  destruct statement; try apply keeping_raise. cbn [_process_QuantumPhase].
  apply keeping_bind; [apply keeping_reading | intros phase].
  apply keeping_bind; [apply keeping_sum_identifiers | intros [| q0 rest]].
  - apply keeping_global_phase.
  - auto 10 with keeping.
Qed.

Lemma keeping_process_QubitDeclaration statement : keeping (_process_QubitDeclaration statement).
Proof.
  destruct statement; try apply keeping_raise. cbn [_process_QubitDeclaration].
  apply keeping_bind; [destruct designator; auto with keeping | intros size].
  auto 10 with keeping.
Qed.

Lemma keeping_process_declarations statement :
  keeping (_process_ConstantDeclaration statement) /\
  keeping (_process_ClassicalDeclaration statement).
Proof.
  split; destruct statement; try apply keeping_raise;
    cbn [_process_ConstantDeclaration _process_ClassicalDeclaration];
    destruct init_expression; auto 10 with keeping.
Qed.

Lemma keeping_process_QuantumReset statement : keeping (_process_QuantumReset statement).
Proof.
  destruct statement; try apply keeping_raise. cbn [_process_QuantumReset].
  auto 10 with keeping.
Qed.

Lemma keeping_process_QuantumGate statement : keeping (_process_QuantumGate statement).
Proof.
  destruct statement; try apply keeping_raise. cbn [_process_QuantumGate].
  auto 12 with keeping.
Qed.

Lemma keeping_process_Statement depth statement :
  keeping (_process_Statement depth statement).
Proof.
  revert statement. induction depth as [| depth IH]; intros statement.
  - apply keeping_raise.
  - cbn [_process_Statement]. destruct (negb _); [apply keeping_raise |].
    destruct (getattr _) as [[m | text] |]; try apply keeping_raise.
    destruct m; cbn [invoke call_method]; try apply keeping_raise; try apply IH.
    + apply keeping_process_QubitDeclaration.
    + apply keeping_process_declarations.
    + apply keeping_process_declarations.
    + apply keeping_process_QuantumReset.
    + apply keeping_process_QuantumGate.
    + apply keeping_process_QuantumGateDefinition.
    + apply keeping_process_QuantumPhase.
Qed.

(** ** Gate definitions *)

Lemma lookup_kept (ctx ctx' : OpenQASMContext) n v l l' :
  keeps ctx ctx' -> ctx !! n = Some (Defined v l) -> context_lookup n l' ctx' = Return v.
Proof. intros Hk H. unfold context_lookup. now rewrite (Hk n v l H). Qed.

Lemma lookup_without_value (ctx : OpenQASMContext) n l :
  has_value ctx n = false ->
  context_lookup n l ctx =
  match ctx !! n with
  | Some _ => Raise (UnresolvedSymbol n l)
  | None =>
      match gate_library n with
      | Some c => Return c
      | None => Raise (UnresolvedSymbol n l)
      end
  end.
Proof.
  unfold has_value, context_lookup.
  destruct (ctx !! n) as [[l0 | w l0] |]; [reflexivity | discriminate | reflexivity].
Qed.

Lemma process_QuantumGateDefinition_frame process_Statement sp gname arguments qubits body s n :
  n <> gname ->
  context (fst (_process_QuantumGateDefinition process_Statement
                  (QuantumGateDefinition sp gname arguments qubits body) s)) !! n
  = context s !! n.
Proof.
  intros Hn. rewrite process_QuantumGateDefinition_eq.
  destruct (translate_gate_body _ _ _ _ _) as [s' [[] | e']];
    [destruct (has_value _ _) |]; cbn; try reflexivity.
  now rewrite lookup_insert_ne.
Qed.

(** C10. The handler of a gate definition never changes the enclosing
    circuit. When the translation of the parameters and the body raises,
    in particular when a statement of the body raises after the statements
    before it were translated, the handler raises the same error and leaves
    the enclosing store, context included, exactly as it was. The handler
    returns only when the whole body was translated, and then the enclosing
    context is the one before with the gate's name bound to the constructor
    that holds the translated body; whatever the outcome, no other name of
    the enclosing context changes. *)
Theorem gate_definition_binding_atomic
    (depth : nat) (sp : Span) (gname : string) (arguments qubits : list Named)
    (body : list Statement) (s : store) :
  let statement := QuantumGateDefinition sp gname arguments qubits body in
  let out := _process_QuantumGateDefinition (_process_Statement depth) statement s in
  let inner :=
    translate_gate_body (_process_Statement depth) arguments qubits body
      (gate_definition_store qubits s) in
  circuit (fst out) = circuit s
  /\ (forall e, snd inner = Raise e -> out = (s, Raise e))
  /\ (forall pre st post s0 sk sf e,
        body = pre ++ st :: post ->
        declare_gate_parameters arguments qubits (gate_definition_store qubits s)
        = (s0, Return tt) ->
        for_each pre (_process_Statement depth) s0 = (sk, Return tt) ->
        _process_Statement depth st sk = (sf, Raise e) ->
        out = (s, Raise e))
  /\ (forall e, snd out = Raise e -> fst out = s)
  /\ (snd out = Return tt ->
      snd inner = Return tt /\
      has_value (context s) gname = false /\
      context (fst out) =
      <[gname := Defined (VCallable (quantum_gate (circuit (fst inner)) (List.map name arguments)))
                   sp]> (context s))
  /\ (forall n, n <> gname -> context (fst out) !! n = context s !! n).
Proof.
  intros statement out inner. subst statement out.
  rewrite process_QuantumGateDefinition_eq. fold inner.
  assert (Hraise : forall e, snd inner = Raise e ->
            match inner with
            | (s', Return _) =>
                if has_value (context s) gname
                then (s, Raise (DuplicateDeclaration gname sp))
                else (mkStore (circuit s)
                        (<[gname := Defined (VCallable (quantum_gate (circuit s')
                                                          (List.map name arguments))) sp]>
                           (context s)), Return tt)
            | (_, Raise e) => (s, Raise e)
            end = (s, Raise e)).
  { intros e He. destruct inner as [s' [[] | e']]; cbn in He; congruence. }
  split; [| split; [exact Hraise | split; [| split; [| split]]]].
  - destruct inner as [s' [[] | e]]; [destruct (has_value _ _) |]; reflexivity.
  - intros pre st post s0 sk sf e -> Hparams Hpre Hst. apply Hraise.
    subst inner. unfold translate_gate_body.
    rewrite (bind_Return _ _ _ Hparams), for_each_app, Hpre.
    cbn [for_each]. now rewrite (bind_Raise _ _ _ Hst).
  - intros e. destruct inner as [s' [[] | e']]; [destruct (has_value _ _) |];
      cbn; congruence.
  - destruct inner as [s' [[] | e']]; [destruct (has_value _ _) |]; cbn; try discriminate.
    auto.
  - intros n Hn. destruct inner as [s' [[] | e']]; [destruct (has_value _ _) |]; cbn;
      try reflexivity.
    now rewrite lookup_insert_ne.
Qed.

(** C5. Let the parameters of a gate definition be declared successfully
    in the copy of the enclosing context, giving the store [s0] on which the
    body is translated. Inside the body, that is after any part [pre] of
    the body has been translated, every name that the enclosing context
    held a value for before the definition resolves to that same value.
    After the definition, for every name other than the gate's own whose
    entry the body changed (a symbol declared inside the body), the
    enclosing context holds no value: a lookup there gives what it gave
    before the definition, which is UnresolvedSymbol unless the name is one
    of the gate library. *)
Theorem gate_definition_scope_isolation
    (depth : nat) (sp : Span) (gname : string) (arguments qubits : list Named)
    (body : list Statement) (s s0 : store) :
  declare_gate_parameters arguments qubits (gate_definition_store qubits s)
  = (s0, Return tt) ->
  let out :=
    _process_QuantumGateDefinition (_process_Statement depth)
      (QuantumGateDefinition sp gname arguments qubits body) s in
  (forall pre post s' r,
     body = pre ++ post ->
     for_each pre (_process_Statement depth) s0 = (s', r) ->
     forall n v l, context s !! n = Some (Defined v l) ->
     forall l', context_lookup n l' (context s') = Return v)
  /\
  (forall s_end r,
     for_each body (_process_Statement depth) s0 = (s_end, r) ->
     forall n, n <> gname ->
     context s_end !! n <> context s0 !! n ->
     has_value (context (fst out)) n = false
     /\ forall l,
          context_lookup n l (context (fst out)) = context_lookup n l (context s)
          /\ (gate_library n = None ->
              context_lookup n l (context (fst out)) = Raise (UnresolvedSymbol n l))).
Proof.
  intros Hparams out.
  assert (Hs0 : keeps (context s) (context s0)).
  { pose proof (keeping_declare_gate_parameters arguments qubits
                  (gate_definition_store qubits s)) as H.
    now rewrite Hparams in H. }
  assert (Hbody : forall l s' r,
             for_each l (_process_Statement depth) s0 = (s', r) ->
             keeps (context s0) (context s')).
  { intros l s' r H.
    pose proof (@keeping_for_each _ l (_process_Statement depth)
                  (keeping_process_Statement depth) s0) as K.
    now rewrite H in K. }
  split.
  - intros pre post s' r _ Hpre n v l Hn l'.
    eapply lookup_kept; [| exact Hn].
    eapply keeps_trans; [exact Hs0 | eapply Hbody; exact Hpre].
  - intros s_end r Hend n Hne Hchanged.
    assert (Hfree0 : has_value (context s0) n = false).
    { destruct (has_value (context s0) n) eqn:E; [| reflexivity].
      apply has_value_true in E as (v & l & E).
      exfalso. apply Hchanged. rewrite E. exact (Hbody _ _ _ Hend n v l E). }
    assert (Hfree : has_value (context s) n = false).
    { destruct (has_value (context s) n) eqn:E; [| reflexivity].
      apply has_value_true in E as (v & l & E).
      apply Hs0 in E. unfold has_value in Hfree0. now rewrite E in Hfree0. }
    pose proof (@process_QuantumGateDefinition_frame (_process_Statement depth)
                  sp gname arguments qubits body s n Hne) as Hother.
    fold out in Hother.
    assert (Hout : has_value (context (fst out)) n = false).
    { unfold has_value in *. now rewrite Hother. }
    split; [exact Hout |]. intros l.
    rewrite (@lookup_without_value _ n l Hout), (@lookup_without_value _ n l Hfree), Hother.
    split; [reflexivity |]. intros ->. now destruct (context s !! n).
Qed.

(** ** Translating a program *)

(** C7, as the code has it. [translate] runs the statements in source
    order on one store. If the statements before the k-th return and the
    k-th raises, [translate] raises that same error; the statements after
    the k-th play no part; and the store is left as the k-th statement left
    it when it raised, that is with everything the statements before it
    accumulated and whatever the k-th itself had already done. *)
Theorem translate_fail_fast
    (depth : nat) (pre : list Statement) (st : Statement) (post : list Statement)
    (sk sf : store) (e : exception) :
  for_each pre (_process_Statement depth) (mkStore (new_circuit 0 (VInt 0)) new_context)
  = (sk, Return tt) ->
  _process_Statement depth st sk = (sf, Raise e) ->
  translate_store depth (mkProgram (pre ++ st :: post)) = (sf, Raise e)
  /\ translate depth (mkProgram (pre ++ st :: post)) = Raise e
  /\ translate_store depth (mkProgram (pre ++ [st])) = (sf, Raise e).
Proof.
  intros Hpre Hst.
  assert (E : forall rest, translate_store depth (mkProgram (pre ++ st :: rest)) = (sf, Raise e)).
  { intros rest. unfold translate_store. cbn [statements].
    rewrite for_each_app, Hpre. cbn [for_each]. now rewrite (bind_Raise _ _ _ Hst). }
  split; [apply E | split; [| apply E]].
  unfold translate. now rewrite E.
Qed.

Unset Implicit Arguments.

(** ** Stack depth

    An outcome other than RecursionError does not depend on how much more
    stack there is. *)

Lemma for_each_more_depth (process process' : Statement -> M unit) (l : list Statement) :
  (forall st s s' r, process st s = (s', r) -> r <> Raise RecursionError ->
                     process' st s = (s', r)) ->
  forall s s' r, for_each l process s = (s', r) -> r <> Raise RecursionError ->
                 for_each l process' s = (s', r).
Proof.
  intros Hstep. induction l as [| st l IH]; intros s s' r H Hr; [exact H |].
  cbn [for_each] in *. unfold bind in *.
  destruct (process st s) as [s1 [[] | e]] eqn:E.
  - rewrite (Hstep _ _ _ _ E) by discriminate. now apply IH.
  - injection H as <- <-. now rewrite (Hstep _ _ _ _ E).
Qed.

Lemma process_Statement_step depth st s :
  _process_Statement (S depth) st s =
  match getattr (String.append NODE_PROCESSING_FUNCTIONS_PREFIX (type_name st)) with
  | None => (s, Raise (UnsupportedFeature (type_name st)))
  | Some a => invoke (_process_Statement depth) a st s
  end.
Proof.
  cbn [_process_Statement]. unfold hasattr. now destruct (getattr _).
Qed.

Lemma process_Statement_more_depth depth :
  forall st s s' r,
    _process_Statement depth st s = (s', r) -> r <> Raise RecursionError ->
    _process_Statement (S depth) st s = (s', r).
Proof.
  induction depth as [| depth IH]; intros st s s' r H Hr.
  - cbn in H. injection H as <- <-. now destruct Hr.
  - rewrite process_Statement_step in H |- *.
    destruct (getattr _) as [[m | text] |]; trivial.
    revert H. destruct m; cbn [invoke call_method]; trivial.
    + intros H. now apply IH.
    + destruct st; trivial. rewrite !process_QuantumGateDefinition_eq.
      unfold translate_gate_body, bind.
      destruct (declare_gate_parameters arguments qubits (gate_definition_store qubits s))
        as [s0 [[] | e0]]; trivial.
      destruct (for_each body (_process_Statement depth) s0) as [sb [[] | eb]] eqn:E.
      * now rewrite (for_each_more_depth _ _ body IH _ _ _ E) by discriminate.
      * intros H. injection H as <- <-.
        now rewrite (for_each_more_depth _ _ body IH _ _ _ E).
Qed.

(** ** Calling a defined gate *)

Lemma setitem_fresh {V : Type} (d : Py.dict V) (k : string) (v : V) :
  ~ In k (List.map fst d) -> Py.setitem d k v = d ++ [(k, v)].
Proof.
  induction d as [| [k' v'] d IH]; intros Hk; [reflexivity |].
  cbn in *. destruct (String.eqb_spec k' k) as [-> | Hne]; [tauto |].
  rewrite IH; tauto.
Qed.

Lemma parameter_dict_positional (pre post : list string) (vs : list value) (d : Py.dict value) :
  List.NoDup (pre ++ post) ->
  List.map fst d = pre ->
  (List.length vs <= List.length post)%nat ->
  parameter_dict (pre ++ post) (Py.enumerate_from (List.length pre) vs) d
  = Return (d ++ List.combine post vs).
Proof.
  revert pre post d. induction vs as [| v vs IH]; intros pre post d Hnd Hd Hlen.
  - cbn. destruct post; cbn; now rewrite List.app_nil_r.
  - destruct post as [| n post]; [cbn in Hlen; lia |].
    cbn [Py.enumerate_from parameter_dict].
    rewrite List.nth_error_app2, Nat.sub_diag by lia. cbn [nth_error].
    assert (Hfresh : ~ In n (List.map fst d)).
    { rewrite Hd. apply NoDup_remove_2 in Hnd. intros Hin. apply Hnd.
      apply List.in_or_app. now left. }
    rewrite (setitem_fresh d n v Hfresh).
    replace (pre ++ n :: post) with ((pre ++ [n]) ++ post) in *
      by now rewrite <- List.app_assoc.
    replace (S (List.length pre)) with (List.length (pre ++ [n]))
      by (rewrite List.length_app; cbn; lia).
    rewrite IH.
    + cbn [List.combine]. now rewrite <- List.app_assoc.
    + exact Hnd.
    + rewrite List.map_app, Hd. reflexivity.
    + cbn in Hlen. lia.
Qed.

Lemma call_defined_gate (definition : QuantumCircuit) (argnames : list string) (vs : list value) :
  List.NoDup argnames ->
  (List.length vs <= List.length argnames)%nat ->
  call (VCallable (quantum_gate definition argnames)) vs
  = Return (to_gate (Some (List.combine argnames vs)) definition).
Proof.
  intros Hnd Hlen. cbn [call]. unfold Py.enumerate.
  pose proof (parameter_dict_positional [] argnames vs [] Hnd eq_refl Hlen) as E.
  cbn [List.app List.length] in E. now rewrite E.
Qed.

(** A loop of [add_symbol]s that returns has bound every name of the
    list, none of them twice and none that had a value before. *)
Lemma for_each_add_symbol {A : Type} (f : A -> string) (g : A -> value) (h : A -> Span)
    (l : list A) (s s' : store) :
  for_each l (fun x => on_context (add_symbol (f x) (g x) (h x))) s = (s', Return tt) ->
  circuit s' = circuit s
  /\ keeps (context s) (context s')
  /\ (forall n, has_value (context s) n = true -> ~ In n (List.map f l))
  /\ List.NoDup (List.map f l)
  /\ (forall x, In x l -> context s' !! f x = Some (Defined (g x) (h x))).
Proof.
  revert s. induction l as [| x l IH]; intros s H.
  - cbn in H. injection H as <-.
    repeat split; try apply keeps_refl; try constructor; cbn; tauto.
  - cbn [for_each] in H. apply bind_inv_Return in H as (s1 & [] & Hx & Hl).
    unfold on_context in Hx. rewrite add_symbol_eq in Hx.
    destruct (has_value (context s) (f x)) eqn:Hfree; [discriminate |].
    injection Hx as <-.
    destruct (IH _ Hl) as (Hc & Hk & Hfresh & Hnd & Hall). cbn in Hc, Hk, Hfresh.
    assert (Hk1 : keeps (context s) (<[f x := Defined (g x) (h x)]> (context s)))
      by now apply keeps_insert.
    assert (Hx1 : ~ In (f x) (List.map f l)).
    { apply Hfresh. unfold has_value. now rewrite lookup_insert_eq. }
    split; [exact Hc |]. split; [eapply keeps_trans; eassumption |].
    split; [| split].
    + intros n Hn [<- | Hin]; [congruence |].
      apply (Hfresh n); [| exact Hin].
      apply has_value_true in Hn as (v & l0 & Hn).
      apply has_value_true. exists v, l0. now apply Hk1.
    + cbn. now constructor.
    + intros y [<- | Hin]; [| now apply Hall].
      apply Hk. apply lookup_insert_eq.
Qed.

Lemma for_each_ext {A : Type} (body body' : A -> M unit) (l : list A) (s : store) :
  (forall x, body x = body' x) -> for_each l body s = for_each l body' s.
Proof.
  intros H. revert s. induction l as [| x l IH]; intros s; [reflexivity |].
  cbn [for_each]. unfold bind. rewrite H.
  destruct (body' x s) as [s1 [[] | e]]; [apply IH | reflexivity].
Qed.

Lemma qubit_indices_from (names : list string) (i : nat) (d : Py.dict nat) :
  List.NoDup (List.map fst d ++ names) ->
  List.fold_left (fun d '(qi, qn) => Py.setitem d qn qi) (Py.enumerate_from i names) d
  = d ++ List.map (fun '(qi, qn) => (qn, qi)) (Py.enumerate_from i names).
Proof.
  revert i d. induction names as [| n names IH]; intros i d Hnd.
  - cbn. now rewrite List.app_nil_r.
  - cbn [Py.enumerate_from List.fold_left List.map].
    assert (Hfresh : ~ In n (List.map fst d)).
    { apply NoDup_remove_2 in Hnd. intros Hin. apply Hnd, List.in_or_app. now left. }
    rewrite (setitem_fresh d n i Hfresh), IH.
    + now rewrite <- List.app_assoc.
    + rewrite List.map_app. cbn. now rewrite <- List.app_assoc.
Qed.

Lemma qubit_indices_of_distinct (names : list string) :
  List.NoDup names ->
  qubit_indices_of names = List.map (fun '(qi, qn) => (qn, qi)) (Py.enumerate names).
Proof.
  intros Hnd. unfold qubit_indices_of, Py.enumerate.
  now rewrite (qubit_indices_from names 0 [] Hnd).
Qed.

Lemma zip_positions (qubits : list Named) (i k : nat) (q : Named) :
  nth_error qubits k = Some q ->
  In (q, (name q, i + k))
    (Py.zip qubits
       (List.map (fun '(qi, qn) => (qn, qi)) (Py.enumerate_from i (List.map name qubits)))).
Proof.
  revert i k. induction qubits as [| q0 qubits IH]; intros i k H.
  - destruct k; discriminate.
  - destruct k as [| k]; cbn in *.
    + injection H as ->. left. now rewrite Nat.add_0_r.
    + right. replace (i + S k) with (S i + k) by lia. now apply IH.
Qed.

Lemma zip_names (arguments : list Named) (a : Named) :
  In a arguments -> In (a, name a) (Py.zip arguments (List.map name arguments)).
Proof.
  induction arguments as [| a0 arguments IH]; cbn; [tauto |].
  intros [-> | H]; [now left | right; now apply IH].
Qed.

Lemma zip_names_snd (arguments : list Named) :
  List.map snd (Py.zip arguments (List.map name arguments)) = List.map name arguments.
Proof. induction arguments as [| a arguments IH]; cbn; [reflexivity | now rewrite IH]. Qed.

(** What the copied context holds once the parameters of a gate definition
    are declared. *)
Lemma declare_gate_parameters_Return (arguments qubits : list Named) (s s0 : store) :
  declare_gate_parameters arguments qubits s = (s0, Return tt) ->
  circuit s0 = circuit s
  /\ keeps (context s) (context s0)
  /\ List.NoDup (List.map name arguments)
  /\ (forall a, In a arguments ->
        context s0 !! name a = Some (Defined (VParameter (name a)) (span a)))
  /\ (List.NoDup (List.map name qubits) ->
      forall i q, nth_error qubits i = Some q ->
        context s0 !! name q = Some (Defined (VInt (Z.of_nat i)) (span q))).
Proof.
  unfold declare_gate_parameters. intros H.
  apply bind_inv_Return in H as (sa & [] & H1 & H2).
  rewrite (for_each_ext _
             (fun x : Named * (string * nat) =>
                on_context (add_symbol (fst (snd x)) (VInt (Z.of_nat (snd (snd x))))
                              (span (fst x)))))
    in H1 by (now intros [qubit [qn qi]]).
  rewrite (for_each_ext _
             (fun x : Named * string =>
                on_context (add_symbol (snd x) (VParameter (snd x)) (span (fst x)))))
    in H2 by (now intros [arg argname]).
  apply for_each_add_symbol in H1 as (Hc1 & Hk1 & _ & _ & Hall1).
  apply for_each_add_symbol in H2 as (Hc2 & Hk2 & _ & Hnd2 & Hall2).
  rewrite zip_names_snd in Hnd2.
  split; [congruence |]. split; [eapply keeps_trans; eassumption |].
  split; [exact Hnd2 |]. split.
  - intros a Ha. exact (Hall2 (a, name a) (zip_names arguments a Ha)).
  - intros Hnd i q Hq. apply Hk2.
    rewrite (qubit_indices_of_distinct _ Hnd) in Hall1.
    exact (Hall1 (q, (name q, i)) (zip_positions qubits 0 i q Hq)).
Qed.

Lemma dispatch_QuantumGateDefinition depth sp gname arguments qubits body s :
  _process_Statement (S depth) (QuantumGateDefinition sp gname arguments qubits body) s
  = _process_QuantumGateDefinition (_process_Statement depth)
      (QuantumGateDefinition sp gname arguments qubits body) s.
Proof. reflexivity. Qed.

Lemma dispatch_QuantumGate depth sp modifiers gname arguments qubits s :
  _process_Statement (S depth) (QuantumGate sp modifiers gname arguments qubits) s
  = _process_QuantumGate (QuantumGate sp modifiers gname arguments qubits) s.
Proof. reflexivity. Qed.

Lemma process_QuantumGate_eq sp modifiers gname arguments qubits s vs f g qss g' :
  evaluated arguments (context s) = Return vs ->
  context_lookup gname sp (context s) = Return f ->
  call f vs = Return g ->
  resolved qubits (context s) = Return qss ->
  wrapped modifiers g (context s) = Return g' ->
  _process_QuantumGate (QuantumGate sp modifiers gname arguments qubits) s
  = (mkStore (append g' (List.map QMany qss) (circuit s)) (context s), Return tt).
Proof.
  intros Hvs Hf Hg Hqss Hg'. cbn [_process_QuantumGate].
  unfold bind. rewrite comprehension_evaluated, Hvs.
  unfold reading at 1. rewrite Hf. unfold reading at 1. rewrite Hg.
  rewrite comprehension_resolved, Hqss, for_fold_wrapped, Hg'. reflexivity.
Qed.

(** C4. Let a QuantumGateDefinition with classical parameters [arguments]
    and qubit parameters [qubits] be translated on a store and return; let
    then a QuantumGate statement without modifiers name that gate, its
    argument expressions evaluating to [vs] (no more values than parameters)
    and its operands resolving to [qss]. The definition's body was
    translated into a circuit [definition] of [len(qubits)] qubits, in a
    context where every classical parameter is a free [Parameter] of its own
    name and, the qubit names being distinct, every qubit parameter is its
    zero-based position. The call appends to the enclosing circuit exactly
    one gate: [definition] turned into a gate with the parameter names bound
    positionally to [vs], applied to the call-site qubits [qss] in order. *)
Theorem gate_definition_round_trip
    (depth : nat) (sp sp' : Span) (gname : string) (arguments qubits : list Named)
    (body : list Statement) (args : list Expression) (operands : list Operand)
    (s s1 : store) (vs : list value) (qss : list (list Qubit)) :
  _process_Statement (S depth) (QuantumGateDefinition sp gname arguments qubits body) s
  = (s1, Return tt) ->
  evaluated args (context s1) = Return vs ->
  resolved operands (context s1) = Return qss ->
  (List.length vs <= List.length arguments)%nat ->
  exists (s0 : store) (definition : QuantumCircuit) (ctx_end : OpenQASMContext),
    declare_gate_parameters arguments qubits (gate_definition_store qubits s)
    = (s0, Return tt)
    /\ circuit s0 = new_circuit (List.length qubits) (VInt 0)
    /\ (forall a l, In a arguments ->
          context_lookup (name a) l (context s0) = Return (VParameter (name a)))
    /\ (List.NoDup (List.map name qubits) ->
        forall i q l, nth_error qubits i = Some q ->
          context_lookup (name q) l (context s0) = Return (VInt (Z.of_nat i)))
    /\ for_each body (_process_Statement depth) s0 = (mkStore definition ctx_end, Return tt)
    /\ circuit s1 = circuit s
    /\ _process_Statement (S depth) (QuantumGate sp' [] gname args operands) s1
       = (mkStore
            (append
               (to_gate (Some (List.combine (List.map name arguments) vs)) definition)
               (List.map QMany qss) (circuit s))
            (context s1),
          Return tt).
Proof.
  intros Hdef Hvs Hqss Hlen.
  rewrite dispatch_QuantumGateDefinition, process_QuantumGateDefinition_eq in Hdef.
  unfold translate_gate_body in Hdef.
  destruct (declare_gate_parameters arguments qubits (gate_definition_store qubits s))
    as [s0 [[] | e0]] eqn:Hparams.
  2:{ rewrite (bind_Raise _ _ _ Hparams) in Hdef. discriminate. }
  rewrite (bind_Return _ _ _ Hparams) in Hdef.
  destruct (for_each body (_process_Statement depth) s0) as [[definition ctx_end] [[] | e1]]
    eqn:Hbody; [| discriminate].
  destruct (has_value (context s) gname) eqn:Hfree; [discriminate |].
  injection Hdef as <-.
  destruct (declare_gate_parameters_Return arguments qubits _ s0 Hparams)
    as (Hc0 & _ & Hnd & Hargs & Hqubits).
  exists s0, definition, ctx_end.
  split; [reflexivity |]. split.
  { rewrite Hc0. unfold gate_definition_store. cbn. now rewrite List.length_map. }
  split.
  { intros a l Ha. unfold context_lookup. now rewrite (Hargs a Ha). }
  split.
  { intros Hndq i q l Hq. unfold context_lookup. now rewrite (Hqubits Hndq i q Hq). }
  split; [exact Hbody |]. split; [reflexivity |].
  rewrite dispatch_QuantumGate.
  set (s1 := mkStore (circuit s)
               (<[gname := Defined (VCallable (quantum_gate definition (List.map name arguments)))
                             sp]> (context s))) in *.
  change (circuit s) with (circuit s1).
  apply (process_QuantumGate_eq sp' [] gname args operands s1 vs
           (VCallable (quantum_gate definition (List.map name arguments)))
           (to_gate (Some (List.combine (List.map name arguments) vs)) definition)
           qss).
  - exact Hvs.
  - cbn [context]. apply lookup_added.
  - apply call_defined_gate; [exact Hnd | now rewrite List.length_map].
  - exact Hqss.
  - reflexivity.
Qed.

(** ** Resets *)

(** One reset instruction per resolved operand. *)
Definition resets_of (qss : list (list Qubit)) : list instruction :=
  List.map (fun q => IReset (QMany q)) qss.

(** The circuit with the instructions [l] after those it has. *)
Definition with_instructions (l : list instruction) (c : QuantumCircuit) : QuantumCircuit :=
  mkCircuit (num_qubits c) (qregs c) (data c ++ l) (global_phase c).

Lemma with_no_instructions (c : QuantumCircuit) : with_instructions [] c = c.
Proof. destruct c. unfold with_instructions. cbn. now rewrite List.app_nil_r. Qed.

Lemma reset_loop_Return (qubits : list Operand) (s : store) (qss : list (list Qubit)) :
  resolved qubits (context s) = Return qss ->
  for_each qubits
    (fun qubit => q <- reading (get_identifier qubit) ;; on_circuit (reset (QMany q))) s
  = (mkStore (with_instructions (resets_of qss) (circuit s)) (context s), Return tt).
Proof.
  revert s qss. induction qubits as [| qubit rest IH]; intros s qss H.
  - cbn in H. injection H as <-. cbn. rewrite with_no_instructions. now destruct s.
  - cbn [resolved] in H.
    destruct (get_identifier qubit (context s)) as [q | e] eqn:Eq; [| discriminate].
    destruct (resolved rest (context s)) as [qs | e] eqn:Er; [| discriminate].
    injection H as <-.
    cbn [for_each]. unfold bind at 1. unfold bind at 1. unfold reading at 1. rewrite Eq.
    unfold on_circuit at 1.
    rewrite (IH (mkStore (reset (QMany q) (circuit s)) (context s)) qs Er).
    cbn. unfold with_instructions. cbn. now rewrite <- List.app_assoc.
Qed.

(** X1. When every operand of a reset statement resolves, the handler
    returns, having appended one reset per operand, in the order of the
    operands, after the operations already in the circuit; registers,
    global phase and context are as before. *)
Theorem process_QuantumReset_all
    (sp : Span) (qubits : list Operand) (s : store) (qss : list (list Qubit)) :
  resolved qubits (context s) = Return qss ->
  _process_QuantumReset (QuantumReset sp qubits) s
  = (mkStore
       (mkCircuit (num_qubits (circuit s)) (qregs (circuit s))
          (data (circuit s) ++ List.map (fun q => IReset (QMany q)) qss)
          (global_phase (circuit s)))
       (context s),
     Return tt).
Proof. intros H. cbn [_process_QuantumReset]. now rewrite (reset_loop_Return qubits s qss H). Qed.

(** X2. When the operands before some operand resolve and that operand
    does not, the handler raises the resolver's error with the resets of
    the operands before it already appended: a failing reset statement is
    not undone, and the operands after the failing one are not looked at. *)
Theorem process_QuantumReset_partial
    (sp : Span) (pre : list Operand) (bad : Operand) (post : list Operand)
    (s : store) (qss : list (list Qubit)) (e : exception) :
  resolved pre (context s) = Return qss ->
  get_identifier bad (context s) = Raise e ->
  _process_QuantumReset (QuantumReset sp (pre ++ bad :: post)) s
  = (mkStore
       (mkCircuit (num_qubits (circuit s)) (qregs (circuit s))
          (data (circuit s) ++ List.map (fun q => IReset (QMany q)) qss)
          (global_phase (circuit s)))
       (context s),
     Raise e).
Proof.
  intros Hpre Hbad. cbn [_process_QuantumReset].
  rewrite for_each_app, (reset_loop_Return pre s qss Hpre).
  cbn [for_each]. unfold bind at 1. unfold bind at 1. unfold reading at 1.
  cbn [context]. now rewrite Hbad.
Qed.

(** ** Gate calls *)

Lemma process_QuantumGate_cases sp modifiers gname arguments qubits s :
  _process_QuantumGate (QuantumGate sp modifiers gname arguments qubits) s =
  match evaluated arguments (context s) with
  | Raise e => (s, Raise e)
  | Return vs =>
      match context_lookup gname sp (context s) with
      | Raise e => (s, Raise e)
      | Return f =>
          match call f vs with
          | Raise e => (s, Raise e)
          | Return g =>
              match resolved qubits (context s) with
              | Raise e => (s, Raise e)
              | Return qss =>
                  match wrapped modifiers g (context s) with
                  | Raise e => (s, Raise e)
                  | Return g' =>
                      (mkStore (append g' (List.map QMany qss) (circuit s)) (context s),
                       Return tt)
                  end
              end
          end
      end
  end.
Proof.
  cbn [_process_QuantumGate]. unfold bind.
  rewrite comprehension_evaluated.
  destruct (evaluated arguments (context s)) as [vs | e]; [| reflexivity].
  unfold reading at 1.
  destruct (context_lookup gname sp (context s)) as [f | e]; [| reflexivity].
  unfold reading at 1.
  destruct (call f vs) as [g | e]; [| reflexivity].
  rewrite comprehension_resolved.
  destruct (resolved qubits (context s)) as [qss | e]; [| reflexivity].
  rewrite for_fold_wrapped.
  now destruct (wrapped modifiers g (context s)).
Qed.

(** X3. A gate call is all or nothing. Either the handler returns and the
    circuit is the one before with exactly one gate appended, on one
    argument per operand, or it raises and the store is exactly as it was.
    The context is never changed. *)
Theorem process_QuantumGate_all_or_nothing
    (sp : Span) (modifiers : list QuantumGateModifier) (gname : string)
    (arguments : list Expression) (qubits : list Operand) (s : store) :
  let out := _process_QuantumGate (QuantumGate sp modifiers gname arguments qubits) s in
  context (fst out) = context s
  /\ ((snd out = Return tt
       /\ exists (g : Gate) (qss : list (list Qubit)),
            List.length qss = List.length qubits
            /\ circuit (fst out) = append g (List.map QMany qss) (circuit s))
      \/ (exists e, snd out = Raise e /\ fst out = s)).
Proof.
  intros out. subst out. rewrite process_QuantumGate_cases.
  destruct (evaluated arguments (context s)) as [vs | e]; [| split; [| right]; eauto].
  destruct (context_lookup gname sp (context s)) as [f | e]; [| split; [| right]; eauto].
  destruct (call f vs) as [g | e]; [| split; [| right]; eauto].
  destruct (resolved qubits (context s)) as [qss | e] eqn:Hq; [| split; [| right]; eauto].
  destruct (wrapped modifiers g (context s)) as [g' | e]; [| split; [| right]; eauto].
  split; [reflexivity |]. left. split; [reflexivity |].
  exists g', qss. split; [| reflexivity].
  clear -Hq. revert qss Hq. induction qubits as [| q rest IH]; intros qss H.
  - cbn in H. now injection H as <-.
  - cbn [resolved] in H. destruct (get_identifier q (context s)); [| discriminate].
    destruct (resolved rest (context s)) as [qs |]; [| discriminate].
    injection H as <-. cbn. f_equal. now apply IH.
Qed.

(** X4. A gate call whose name is bound to something other than a gate
    constructor (a register, a number, a parameter) raises TypeError, once
    its arguments are evaluated, and changes nothing. *)
Theorem process_QuantumGate_not_callable
    (sp : Span) (modifiers : list QuantumGateModifier) (gname : string)
    (arguments : list Expression) (qubits : list Operand) (s : store)
    (vs : list value) (f : value) :
  evaluated arguments (context s) = Return vs ->
  context_lookup gname sp (context s) = Return f ->
  (forall c, f <> VCallable c) ->
  _process_QuantumGate (QuantumGate sp modifiers gname arguments qubits) s
  = (s, Raise TypeError).
Proof.
  intros Hvs Hf Hnc. rewrite process_QuantumGate_cases, Hvs, Hf.
  destruct f as [z | c | pname | size rname | c]; try reflexivity.
  now destruct (Hnc c).
Qed.

Lemma parameter_dict_IndexError (argnames : list string) (vs : list value) (i : nat)
    (d : Py.dict value) :
  (i <= List.length argnames)%nat ->
  (List.length argnames < i + List.length vs)%nat ->
  parameter_dict argnames (Py.enumerate_from i vs) d = Raise IndexError.
Proof.
  revert i d. induction vs as [| v vs IH]; intros i d Hi Hlen.
  - cbn in Hlen. lia.
  - cbn [Py.enumerate_from parameter_dict].
    destruct (nth_error argnames i) as [n |] eqn:E; [| reflexivity].
    apply IH.
    + assert (i < List.length argnames)%nat; [| lia].
      apply List.nth_error_Some. congruence.
    + cbn in Hlen. lia.
Qed.

(** X5. Calling a defined gate with more argument values than the
    definition has parameters raises IndexError, whatever the values, and
    the gate statement changes nothing. *)
Theorem process_QuantumGate_too_many_arguments
    (sp : Span) (modifiers : list QuantumGateModifier) (gname : string)
    (arguments : list Expression) (qubits : list Operand) (s : store)
    (vs : list value) (definition : QuantumCircuit) (argnames : list string) :
  evaluated arguments (context s) = Return vs ->
  context_lookup gname sp (context s) = Return (VCallable (quantum_gate definition argnames)) ->
  (List.length argnames < List.length vs)%nat ->
  _process_QuantumGate (QuantumGate sp modifiers gname arguments qubits) s
  = (s, Raise IndexError).
Proof.
  intros Hvs Hf Hlen. rewrite process_QuantumGate_cases, Hvs, Hf.
  cbn [call]. unfold Py.enumerate.
  now rewrite (parameter_dict_IndexError argnames vs 0 []) by (cbn; lia).
Qed.

(** ** Qubit positions of a gate definition *)

Lemma getitem_setitem {V : Type} (d : Py.dict V) (k k' : string) (v : V) :
  Py.getitem (Py.setitem d k v) k' = if String.eqb k k' then Some v else Py.getitem d k'.
Proof.
  induction d as [| [k0 v0] d IH]; cbn.
  - reflexivity.
  - destruct (String.eqb_spec k0 k) as [-> | Hne]; cbn.
    + now destruct (String.eqb k k').
    + rewrite IH. destruct (String.eqb_spec k0 k') as [-> | Hne']; [| reflexivity].
      destruct (String.eqb_spec k k'); [congruence | reflexivity].
Qed.

(** The last position of a name in a list. *)
Fixpoint last_index (n : string) (names : list string) : option nat :=
  match names with
  | [] => None
  | x :: rest =>
      match last_index n rest with
      | Some j => Some (S j)
      | None => if String.eqb x n then Some 0%nat else None
      end
  end.

Lemma last_index_None (n : string) (names : list string) :
  last_index n names = None -> forall j, nth_error names j <> Some n.
Proof.
  induction names as [| x rest IH]; intros H j.
  - now destruct j.
  - cbn in H. destruct (last_index n rest); [discriminate |].
    destruct (String.eqb_spec x n) as [-> | Hne]; [discriminate |].
    destruct j as [| j]; cbn; [congruence | now apply IH].
Qed.

Lemma last_index_Some (n : string) (names : list string) (i : nat) :
  last_index n names = Some i <->
  nth_error names i = Some n /\ forall j, (i < j)%nat -> nth_error names j <> Some n.
Proof.
  revert i. induction names as [| x rest IH]; intros i.
  - cbn. split; [discriminate | intros [H _]; now destruct i].
  - cbn [last_index]. destruct (last_index n rest) as [j |] eqn:E.
    + split.
      * intros [= <-]. destruct (proj1 (IH j) eq_refl) as [Hj Hlast].
        split; [exact Hj |]. intros [| j'] Hlt; [lia |]. cbn. apply Hlast. lia.
      * intros [Hi Hlast]. destruct i as [| i].
        -- exfalso. destruct (proj1 (IH j) eq_refl) as [Hj _].
           apply (Hlast (S j)); [lia | exact Hj].
        -- assert (Hji : Some j = Some i).
           { apply IH. split; [exact Hi |].
             intros j' Hlt. apply (Hlast (S j')). lia. }
           now injection Hji as ->.
    + pose proof (last_index_None n rest E) as Hnone.
      destruct (String.eqb_spec x n) as [-> | Hne]; split.
      * intros [= <-]. split; [reflexivity |]. intros [| j] Hlt; [lia | apply Hnone].
      * intros [Hi _]. destruct i as [| i]; [reflexivity | now destruct (Hnone i)].
      * discriminate.
      * intros [Hi _]. destruct i as [| i]; cbn in Hi; [congruence | now destruct (Hnone i)].
Qed.

Lemma qubit_indices_getitem (names : list string) (k : nat) (d : Py.dict nat) (n : string) :
  Py.getitem
    (List.fold_left (fun d '(qi, qn) => Py.setitem d qn qi) (Py.enumerate_from k names) d) n
  = match last_index n names with
    | Some j => Some (k + j)%nat
    | None => Py.getitem d n
    end.
Proof.
  revert k d. induction names as [| x rest IH]; intros k d; [reflexivity |].
  cbn [Py.enumerate_from List.fold_left last_index]. rewrite IH, getitem_setitem.
  destruct (last_index n rest) as [j |]; [f_equal; lia |].
  destruct (String.eqb x n); [f_equal; lia | reflexivity].
Qed.

(** X6. The dictionary [qubit_indices] of a gate definition gives each
    qubit name the last position at which the name occurs in the
    definition's qubit list (a repeated name does not raise and does not
    keep its first position), and has no entry for any other name. *)
Theorem qubit_indices_last_position (qubit_names : list string) (qn : string) :
  (forall qi,
     Py.getitem (qubit_indices_of qubit_names) qn = Some qi <->
     nth_error qubit_names qi = Some qn /\
     forall j, (qi < j)%nat -> nth_error qubit_names j <> Some qn)
  /\ (Py.getitem (qubit_indices_of qubit_names) qn = None <-> ~ In qn qubit_names).
Proof.
  assert (E : Py.getitem (qubit_indices_of qubit_names) qn = last_index qn qubit_names).
  { unfold qubit_indices_of, Py.enumerate. rewrite qubit_indices_getitem.
    now destruct (last_index qn qubit_names). }
  rewrite E. split; [intros qi; apply last_index_Some |].
  split.
  - intros H Hin. apply List.In_nth_error in Hin as [j Hj].
    exact (last_index_None qn qubit_names H j Hj).
  - intros Hnot. destruct (last_index qn qubit_names) as [j |] eqn:El; [| reflexivity].
    apply last_index_Some in El as [Hj _]. destruct Hnot.
    eapply List.nth_error_In, Hj.
Qed.

(** ** Footprints *)

(** A computation that leaves the context as it is. *)
Definition context_preserving {A : Type} (m : M A) : Prop :=
  forall s, context (fst (m s)) = context s.

Lemma context_preserving_bind {A B : Type} (m : M A) (k : A -> M B) :
  context_preserving m -> (forall a, context_preserving (k a)) ->
  context_preserving (bind m k).
Proof.
  intros Hm Hk s. unfold bind. specialize (Hm s).
  destruct (m s) as [s1 [a | e]]; cbn in *; [| exact Hm].
  now rewrite Hk.
Qed.

Lemma context_preserving_for_each {A : Type} (l : list A) (body : A -> M unit) :
  (forall x, context_preserving (body x)) -> context_preserving (for_each l body).
Proof.
  intros Hbody. induction l as [| x l IH]; cbn [for_each]; [now intros s |].
  apply context_preserving_bind; [apply Hbody | intros _; exact IH].
Qed.

Lemma context_preserving_comprehension {A B : Type} (f : A -> M B) (l : list A) :
  (forall x, context_preserving (f x)) -> context_preserving (comprehension f l).
Proof.
  intros Hf. induction l as [| x l IH]; cbn [comprehension]; [now intros s |].
  apply context_preserving_bind; [apply Hf | intros y].
  apply context_preserving_bind; [exact IH | now intros ys s].
Qed.

Lemma context_preserving_for_fold {A B : Type} (step : B -> A -> M B) (l : list A) (g : B) :
  (forall g x, context_preserving (step g x)) -> context_preserving (for_fold step l g).
Proof.
  intros Hstep. revert g. induction l as [| x l IH]; intros g; cbn [for_fold]; [now intros s |].
  apply context_preserving_bind; [apply Hstep | intros g'; apply IH].
Qed.

Lemma context_preserving_sum_identifiers qubits start :
  context_preserving (sum_identifiers qubits start).
Proof.
  revert start. induction qubits as [| q rest IH]; intros start; cbn [sum_identifiers];
    [now intros s |].
  apply context_preserving_bind; [now intros s | intros x; apply IH].
Qed.

(** X7. The handlers of reset, gate and phase statements never change the
    context, whether they return or raise, and whatever node they are
    given. *)
Theorem quantum_statements_preserve_context (statement : Statement) (s : store) :
  context (fst (_process_QuantumReset statement s)) = context s
  /\ context (fst (_process_QuantumGate statement s)) = context s
  /\ context (fst (_process_QuantumPhase statement s)) = context s.
Proof.
  split; [| split]; revert s;
    change (context_preserving (_process_QuantumReset statement)) ||
    change (context_preserving (_process_QuantumGate statement)) ||
    change (context_preserving (_process_QuantumPhase statement));
    destruct statement; try (now intros s).
  - cbn [_process_QuantumReset]. apply context_preserving_for_each. intros q.
    apply context_preserving_bind; [now intros s | now intros a s].
  - cbn [_process_QuantumGate].
    apply context_preserving_bind;
      [apply context_preserving_comprehension; now intros x s | intros vs].
    apply context_preserving_bind; [now intros s | intros f].
    apply context_preserving_bind; [now intros s | intros g].
    apply context_preserving_bind;
      [apply context_preserving_comprehension; now intros x s | intros qss].
    apply context_preserving_bind;
      [apply context_preserving_for_fold; now intros g0 x s | now intros g' s].
  - cbn [_process_QuantumPhase].
    apply context_preserving_bind; [now intros s | intros phase].
    apply context_preserving_bind; [apply context_preserving_sum_identifiers | intros qs].
    destruct qs as [| q0 rest].
    + intros s. now destruct (py_add (global_phase (circuit s)) phase).
    + apply context_preserving_bind;
        [apply context_preserving_for_fold; now intros g0 x s | now intros g' s].
Qed.

(** ** The circuit only grows *)






















(** ** Phases, when something fails *)

Lemma process_QuantumPhase_cases sp modifiers argument qubits s :
  _process_QuantumPhase (QuantumPhase sp modifiers argument qubits) s =
  match compute_expression argument (context s) with
  | Raise e => (s, Raise e)
  | Return phase =>
      match resolved qubits (context s) with
      | Raise e => (s, Raise e)
      | Return qs =>
          match List.concat qs with
          | [] =>
              match py_add (global_phase (circuit s)) phase with
              | Return p => (mkStore (set_global_phase p (circuit s)) (context s), Return tt)
              | Raise e => (s, Raise e)
              end
          | _ :: _ =>
              match wrapped modifiers (to_gate None (new_circuit 1 phase)) (context s) with
              | Return g =>
                  (mkStore (append g (List.map QOne (List.concat qs)) (circuit s)) (context s),
                   Return tt)
              | Raise e => (s, Raise e)
              end
          end
      end
  end.
Proof.
  destruct (compute_expression argument (context s)) as [phase | e] eqn:Hp.
  - destruct (resolved qubits (context s)) as [qs | e] eqn:Hq.
    + exact (process_QuantumPhase_eq sp modifiers _ _ Hp Hq).
    + cbn [_process_QuantumPhase]. unfold bind. unfold reading at 1. rewrite Hp.
      now rewrite sum_identifiers_resolved, Hq.
  - cbn [_process_QuantumPhase]. unfold bind. unfold reading at 1. now rewrite Hp.
Qed.

(** X9. A phase statement is all or nothing, and does one thing only.
    If its handler raises, the store is exactly as it was. If it returns,
    the registers and the context are as they were, and either the
    operations are as they were (only the global phase may differ) or the
    global phase is as it was and exactly one gate was appended: it never
    both changes the global phase and appends a gate. *)
Theorem process_QuantumPhase_all_or_nothing
    (sp : Span) (modifiers : list QuantumGateModifier) (argument : Expression)
    (qubits : list Operand) (s : store) :
  let out := _process_QuantumPhase (QuantumPhase sp modifiers argument qubits) s in
  (exists e, snd out = Raise e /\ fst out = s)
  \/ (snd out = Return tt
      /\ context (fst out) = context s
      /\ qregs (circuit (fst out)) = qregs (circuit s)
      /\ (data (circuit (fst out)) = data (circuit s)
          \/ (global_phase (circuit (fst out)) = global_phase (circuit s)
              /\ exists g qargs, qargs <> [] /\
                   data (circuit (fst out)) = data (circuit s) ++ [IGate g qargs]))).
Proof.
  intros out. subst out. rewrite process_QuantumPhase_cases.
  destruct (compute_expression argument (context s)) as [phase | e]; [| left; eauto].
  destruct (resolved qubits (context s)) as [qs | e]; [| left; eauto].
  destruct (List.concat qs) as [| q0 rest].
  - destruct (py_add (global_phase (circuit s)) phase) as [p | e]; [| left; eauto].
    right. cbn. auto.
  - destruct (wrapped modifiers _ _) as [g | e]; [| left; eauto].
    right. cbn. repeat split. right. split; [reflexivity |].
    exists g, (QOne q0 :: List.map QOne rest). split; [discriminate | reflexivity].
Qed.

(** ** Programs, statement after statement *)

(** X10. Translation composes. When the statements of [pre] all return,
    leaving the store [sk], translating [pre] followed by [post] is
    translating [post] from [sk]; and [translate] on [pre] alone returns
    the circuit of [sk]. *)
Theorem translate_in_sequence
    (depth : nat) (pre post : list Statement) (sk : store) :
  for_each pre (_process_Statement depth) (mkStore (new_circuit 0 (VInt 0)) new_context)
  = (sk, Return tt) ->
  translate_store depth (mkProgram (pre ++ post))
  = for_each post (_process_Statement depth) sk
  /\ translate depth (mkProgram pre) = Return (circuit sk).
Proof.
  intros Hpre. split.
  - unfold translate_store. cbn [statements]. now rewrite for_each_app, Hpre.
  - unfold translate, translate_store. cbn [statements]. now rewrite Hpre.
Qed.

(** ** The width of a defined gate *)



(** ** Unsupported nodes *)

(** X15. When the statements before a node return and the node's class has
    no [_process_] function, [translate] raises UnsupportedFeature with
    the class name, and the store is exactly the one the statements before
    the node left: an unsupported node adds nothing of its own, and what
    follows it is not looked at. *)
Theorem translate_unsupported_node
    (depth : nat) (pre : list Statement) (st : Statement) (post : list Statement)
    (sk : store) :
  for_each pre (_process_Statement (S depth))
    (mkStore (new_circuit 0 (VInt 0)) new_context) = (sk, Return tt) ->
  ~ In (type_name st) supported_features ->
  translate_store (S depth) (mkProgram (pre ++ st :: post))
  = (sk, Raise (UnsupportedFeature (type_name st)))
  /\ translate (S depth) (mkProgram (pre ++ st :: post))
     = Raise (UnsupportedFeature (type_name st)).
Proof.
  intros Hpre Hout.
  assert (Hno : hasattr (String.append NODE_PROCESSING_FUNCTIONS_PREFIX (type_name st))
                = false).
  { destruct (hasattr _) eqn:H; [| reflexivity]. now apply hasattr_supported in H. }
  assert (E : translate_store (S depth) (mkProgram (pre ++ st :: post))
              = (sk, Raise (UnsupportedFeature (type_name st)))).
  { unfold translate_store. cbn [statements]. rewrite for_each_app, Hpre.
    cbn [for_each]. unfold bind. now rewrite (dispatch_unsupported depth st sk Hno). }
  split; [exact E |]. unfold translate. now rewrite E.
Qed.

(** X16. An unsupported node inside the body of a gate definition aborts
    the definition: when the parameters are declared and the body
    statements before the node return, the definition raises
    UnsupportedFeature with the node's class name and the enclosing store
    is exactly as it was; the gate's name is not bound. *)
Theorem gate_definition_unsupported_node
    (depth : nat) (sp : Span) (gname : string) (arguments qubits : list Named)
    (pre : list Statement) (st : Statement) (post : list Statement) (s s0 sk : store) :
  declare_gate_parameters arguments qubits (gate_definition_store qubits s)
  = (s0, Return tt) ->
  for_each pre (_process_Statement (S depth)) s0 = (sk, Return tt) ->
  ~ In (type_name st) supported_features ->
  _process_Statement (S (S depth))
    (QuantumGateDefinition sp gname arguments qubits (pre ++ st :: post)) s
  = (s, Raise (UnsupportedFeature (type_name st))).
Proof.
  intros Hparams Hpre Hout.
  assert (Hno : hasattr (String.append NODE_PROCESSING_FUNCTIONS_PREFIX (type_name st))
                = false).
  { destruct (hasattr _) eqn:H; [| reflexivity]. now apply hasattr_supported in H. }
  rewrite dispatch_QuantumGateDefinition, process_QuantumGateDefinition_eq.
  unfold translate_gate_body, bind. rewrite Hparams, for_each_app, Hpre.
  cbn [for_each]. unfold bind. now rewrite (dispatch_unsupported depth st sk Hno).
Qed.

End Translator.

Arguments Return {Span A} a.
Arguments Raise {Span A} e.
Arguments VInt {QuantumGateModifier Classical Qubit} z.
Arguments VClassical {QuantumGateModifier Classical Qubit} c.
Arguments VParameter {QuantumGateModifier Classical Qubit} pname.
Arguments VRegister {QuantumGateModifier Classical Qubit} reg_size reg_name.
Arguments VCallable {QuantumGateModifier Classical Qubit} f.
Arguments library_gate {QuantumGateModifier Classical Qubit} lname.
Arguments quantum_gate {QuantumGateModifier Classical Qubit} circuit argnames.
Arguments mkCircuit {QuantumGateModifier Classical Qubit} num_qubits qregs data global_phase.
Arguments IGate {QuantumGateModifier Classical Qubit} g qargs.
Arguments IReset {QuantumGateModifier Classical Qubit} q.
Arguments GLibrary {QuantumGateModifier Classical Qubit} lname params.
Arguments GCircuit {QuantumGateModifier Classical Qubit} definition parameter_map.
Arguments GModified {QuantumGateModifier Classical Qubit} modifier base.
Arguments QOne {QuantumGateModifier Classical Qubit} q.
Arguments QMany {QuantumGateModifier Classical Qubit} qs.
Arguments UnsupportedFeature {Span} feature.
Arguments UnresolvedSymbol {Span} symbol location.
Arguments DuplicateDeclaration {Span} symbol location.
Arguments InvalidOperand {Span}.
Arguments AttributeError {Span}.
Arguments TypeError {Span}.
Arguments IndexError {Span}.
Arguments RecursionError {Span}.
Arguments QubitDeclaration {Span Expression Operand QuantumGateModifier ClassicalType}
  sp qubit designator.
Arguments ConstantDeclaration {Span Expression Operand QuantumGateModifier ClassicalType}
  sp identifier init_expression.
Arguments ClassicalDeclaration {Span Expression Operand QuantumGateModifier ClassicalType}
  sp type_ identifier init_expression.
Arguments QuantumReset {Span Expression Operand QuantumGateModifier ClassicalType} sp qubits.
Arguments QuantumGate {Span Expression Operand QuantumGateModifier ClassicalType}
  sp modifiers gname arguments qubits.
Arguments QuantumGateDefinition {Span Expression Operand QuantumGateModifier ClassicalType}
  sp gname arguments qubits body.
Arguments QuantumPhase {Span Expression Operand QuantumGateModifier ClassicalType}
  sp quantum_gate_modifiers argument qubits.
Arguments OtherNode {Span Expression Operand QuantumGateModifier ClassicalType} class_name.
Arguments Declared {Span QuantumGateModifier Classical Qubit} location.
Arguments Defined {Span QuantumGateModifier Classical Qubit} v location.
Arguments new_context {Span QuantumGateModifier Classical Qubit}.

(** * A concrete front end

    An instance of the translator on a small expression language, used to
    run it on programs. *)

Module Sample.

(** Source locations are line numbers. *)
Definition Span : Type := nat.

(** Integer literals and identifiers. *)
Inductive Expression : Type :=
| IntegerLiteral (z : Z)
| Identifier (n : string) (line : Span).

(** A whole register or one qubit of it. *)
Inductive Operand : Type :=
| Whole (n : string) (line : Span)
| Indexed (n : string) (index : nat) (line : Span).

Inductive Modifier : Type := inv | ctrl.

Inductive ClassicalType : Type := IntType | BitType.

Inductive Classical : Type := BooleanValue (b : bool).

(** A qubit of a declared register, or a position inside a gate body. *)
Inductive Qubit : Type :=
| RegisterQubit (register : string) (index : nat)
| PositionalQubit (position : Z).

Abbreviation val := (value Modifier Classical Qubit).
Abbreviation gate := (Gate Modifier Classical Qubit).
Abbreviation ctx := (gmap string (entry Span Modifier Classical Qubit)).
Abbreviation stmt := (Statement Span Expression Operand Modifier ClassicalType).
Abbreviation sto := (store Span Modifier Classical Qubit).

(** Modelled from the spec: the built-in gate table of section 6, here with
    four standard gates. *)
Definition gate_library (n : string) : option val :=
  if List.existsb (String.eqb n) ["x"; "h"; "cx"; "rz"]
  then Some (VCallable (library_gate n))
  else None.

(** Modelled from the spec: the expression evaluator of section 4.3 on
    literals and identifiers. *)
Definition compute_expression (e : Expression) (c : ctx) : result Span val :=
  match e with
  | IntegerLiteral z => Return (VInt z)
  | Identifier n line => context_lookup gate_library n line c
  end.

(** Modelled from the spec: the identifier resolver of section 4.4. A bare
    identifier is the whole register (or, in a gate body, the position the
    name stands for); an index is checked against the declared size. *)
Definition get_identifier (o : Operand) (c : ctx) : result Span (list Qubit) :=
  match o with
  | Whole n line =>
      match context_lookup gate_library n line c with
      | Return (VRegister (VInt size) rname) =>
          Return (List.map (RegisterQubit rname) (List.seq 0 (Z.to_nat size)))
      | Return (VInt position) => Return [PositionalQubit position]
      | Return _ => Raise InvalidOperand
      | Raise e => Raise e
      end
  | Indexed n index line =>
      match context_lookup gate_library n line c with
      | Return (VRegister (VInt size) rname) =>
          if (Z.of_nat index <? size)%Z
          then Return [RegisterQubit rname index]
          else Raise InvalidOperand
      | Return _ => Raise InvalidOperand
      | Raise e => Raise e
      end
  end.

(** Modelled from the spec: the modifier applier of section 4.5 wraps the
    gate. *)
Definition apply_modifier (g : gate) (m : Modifier) (c : ctx) : result Span gate :=
  Return (GModified m g).

Definition library_call (n : string) (args : list val) : result Span gate :=
  Return (GLibrary n args).

(** Integer addition; anything else is a TypeError. *)
Definition py_add (a b : val) : result Span val :=
  match a, b with
  | VInt x, VInt y => Return (VInt (x + y))
  | _, _ => Raise TypeError
  end.

(** The translator on this front end. *)
Definition process_Statement (depth : nat) (statement : stmt) : sto -> sto * result Span unit :=
  _process_Statement gate_library compute_expression get_identifier apply_modifier
    library_call py_add depth statement.

Definition run (depth : nat) (program : list stmt) : sto * result Span unit :=
  translate_store gate_library compute_expression get_identifier apply_modifier
    library_call py_add depth (mkProgram program).

(** [qubit[2] q;] on line 1. *)
Definition declare_q : stmt :=
  QubitDeclaration 1 (mkNamed "q" 1) (Some (IntegerLiteral 2)).

(** [reset q, r;] on line 2, where [r] is not declared. *)
Definition reset_q_r : stmt :=
  QuantumReset 2 [Whole "q" 2; Whole "r" 2].

(** [x q[0];] on line 3. *)
Definition x_q0 : stmt :=
  QuantumGate 3 [] "x" [] [Indexed "q" 0 3].

(** [const n = 2;] on line 1. *)
Definition const_n : stmt :=
  ConstantDeclaration 1 (mkNamed "n" 1) (Some (IntegerLiteral 2)).

(** [gate g(theta) a, b { rz(theta) b; cx a, b; }] on lines 2 to 4. *)
Definition gate_g : stmt :=
  QuantumGateDefinition 2 "g"
    [mkNamed "theta" 2] [mkNamed "a" 2; mkNamed "b" 2]
    [ QuantumGate 3 [] "rz" [Identifier "theta" 3] [Whole "b" 3];
      QuantumGate 4 [] "cx" [] [Whole "a" 4; Whole "b" 4] ].

(** [gate k a { const m = 7; x a; }] on lines 2 to 4: the body declares a
    symbol of its own. *)
Definition gate_k_body : list stmt :=
  [ ConstantDeclaration 3 (mkNamed "m" 3) (Some (IntegerLiteral 7));
    QuantumGate 4 [] "x" [] [Whole "a" 4] ].

(** [g(5) q[0], q[1];] on line 5. *)
Definition call_g : stmt :=
  QuantumGate 5 [] "g" [IntegerLiteral 5] [Indexed "q" 0 5; Indexed "q" 1 5].

(** The two qubits of [q]. *)
Definition q0 : Qubit := RegisterQubit "q" 0.
Definition q1 : Qubit := RegisterQubit "q" 1.

(** The store [translate] starts from. *)
Definition initial : sto :=
  mkStore (new_circuit 0 (VInt 0)) new_context.

End Sample.

(** * Concrete runs *)

Import Sample.

(** The spec's end-to-end example: a two-qubit register and [x] on its
    first qubit. *)
Example translate_end_to_end :
  translate gate_library compute_expression get_identifier apply_modifier library_call
    py_add 1 (mkProgram [declare_q; x_q0])
  = Return (mkCircuit 0 [VRegister (VInt 2) "q"] [IGate (GLibrary "x" []) [QMany [q0]]]
              (VInt 0)).
Proof. reflexivity. Qed.

(** C1 on [gphase(3);] and on [inv @ ctrl @ gphase(3) q;] after
    [qubit[2] q;]. *)
Lemma process_QuantumPhase_fork_witness :
  let s := fst (run 1 [declare_q]) in
  let handler :=
    _process_QuantumPhase (ClassicalType := ClassicalType)
      compute_expression get_identifier apply_modifier py_add in
  let global := handler (QuantumPhase 2 [inv] (IntegerLiteral 3) []) s in
  let localized := handler (QuantumPhase 2 [inv; ctrl] (IntegerLiteral 3) [Whole "q" 2]) s in
  (snd global = Return tt
   /\ global_phase (circuit (fst global)) = VInt 3
   /\ data (circuit (fst global)) = [])
  /\
  (snd localized = Return tt
   /\ data (circuit (fst localized))
      = [IGate (GModified ctrl (GModified inv (GCircuit (mkCircuit 1 [] [] (VInt 3)) None)))
           [QOne q0; QOne q1]]
   /\ global_phase (circuit (fst localized)) = VInt 0).
Proof.
  intros s handler global localized. split.
  - destruct (process_QuantumPhase_fork ClassicalType compute_expression get_identifier
                apply_modifier py_add 2 [inv] (IntegerLiteral 3) [] s
                (phase := VInt 3) (qs := []) eq_refl eq_refl) as [H _].
    destruct (H eq_refl (VInt 3) eq_refl) as (Hr & Hp & Hd & _).
    split; [exact Hr | split; [exact Hp | exact Hd]].
  - destruct (process_QuantumPhase_fork ClassicalType compute_expression get_identifier
                apply_modifier py_add 2 [inv; ctrl] (IntegerLiteral 3) [Whole "q" 2] s
                (phase := VInt 3) (qs := [[q0; q1]]) eq_refl eq_refl) as [_ H].
    destruct (H ltac:(discriminate)
                (GModified ctrl (GModified inv (GCircuit (mkCircuit 1 [] [] (VInt 3)) None)))
                eq_refl) as (Hr & Hd & Hp & _).
    split; [exact Hr | split; [exact Hd | exact Hp]].
Defined.

(** C6 on [qubit q;] and on [qubit[5] q;]. *)
Lemma process_QubitDeclaration_allocates_witness :
  let handler :=
    _process_QubitDeclaration (Operand := Operand) (ClassicalType := ClassicalType)
      compute_expression in
  let one := handler (QubitDeclaration 1 (mkNamed "q" 1) None) initial in
  let five := handler (QubitDeclaration 1 (mkNamed "q" 1) (Some (IntegerLiteral 5))) initial in
  (qregs (circuit (fst one)) = [VRegister (VInt 1) "q"]
   /\ context_lookup gate_library "q" 9 (context (fst one)) = Return (VRegister (VInt 1) "q"))
  /\
  (qregs (circuit (fst five)) = [VRegister (VInt 5) "q"]
   /\ context_lookup gate_library "q" 9 (context (fst five)) = Return (VRegister (VInt 5) "q")).
Proof.
  intros handler one five. split.
  - destruct (process_QubitDeclaration_allocates Operand ClassicalType gate_library
                compute_expression 1 (mkNamed "q" 1) None initial (size := VInt 1) eq_refl)
      as (_ & Hq & _ & _ & _ & Hc).
    split; [exact Hq |]. cbn in Hc. destruct Hc as (_ & _ & Hl). exact (Hl 9).
  - destruct (process_QubitDeclaration_allocates Operand ClassicalType gate_library
                compute_expression 1 (mkNamed "q" 1) (Some (IntegerLiteral 5)) initial
                (size := VInt 5) eq_refl)
      as (_ & Hq & _ & _ & _ & Hc).
    split; [exact Hq |]. cbn in Hc. destruct Hc as (_ & _ & Hl). exact (Hl 9).
Defined.


(** C4 on [gate g(theta) a, b { rz(theta) b; cx a, b; }] followed by
    [g(5) q[0], q[1];]: the one gate appended is the body's circuit, in
    which [a] is position 0 and [b] position 1, with [theta] bound to 5, on
    [q[0]] and [q[1]]. *)
Lemma gate_definition_round_trip_witness :
  let s := fst (run 1 [declare_q]) in
  let s1 := fst (process_Statement 2 gate_g s) in
  data (circuit (fst (process_Statement 2 call_g s1)))
  = [IGate
       (GCircuit
          (mkCircuit 2 []
             [IGate (GLibrary "rz" [VParameter "theta"]) [QMany [PositionalQubit 1]];
              IGate (GLibrary "cx" []) [QMany [PositionalQubit 0]; QMany [PositionalQubit 1]]]
             (VInt 0))
          (Some [("theta", VInt 5)]))
       [QMany [q0]; QMany [q1]]].
Proof.
  intros s s1.
  destruct (gate_definition_round_trip
              Span Expression Operand Modifier ClassicalType Classical Qubit
              gate_library compute_expression get_identifier
              apply_modifier library_call py_add 1 2 5 "g"
              [mkNamed "theta" 2] [mkNamed "a" 2; mkNamed "b" 2]
              [ QuantumGate 3 [] "rz" [Identifier "theta" 3] [Whole "b" 3];
                QuantumGate 4 [] "cx" [] [Whole "a" 4; Whole "b" 4] ]
              [IntegerLiteral 5] [Indexed "q" 0 5; Indexed "q" 1 5]
              s s1 [VInt 5] [[q0]; [q1]]
              eq_refl eq_refl eq_refl (le_n 1))
    as (s0 & definition & ctx_end & Hparams & _ & _ & _ & Hbody & _ & Hcall).
  vm_compute in Hparams. injection Hparams as <-.
  vm_compute in Hbody. injection Hbody as <- _.
  exact (f_equal (fun r : sto * result Span unit => data (circuit (fst r))) Hcall).
Defined.

(** C5 on [const n = 2;] followed by [gate k a { const m = 7; x a; }]:
    inside the body [n] still resolves to 2, and after the definition [m],
    which the body declared, is unresolved in the enclosing context. *)
Lemma gate_definition_scope_isolation_witness :
  let s := fst (run 1 [const_n]) in
  let s0 :=
    fst (declare_gate_parameters [] [mkNamed "a" 2]
           (gate_definition_store [mkNamed "a" 2] s)) in
  let inside := fst (for_each gate_k_body (process_Statement 1) s0) in
  let after :=
    fst (process_Statement 2 (QuantumGateDefinition 2 "k" [] [mkNamed "a" 2] gate_k_body) s) in
  context_lookup gate_library "n" 4 (context inside) = Return (VInt 2)
  /\ context_lookup gate_library "m" 4 (context inside) = Return (VInt 7)
  /\ context_lookup gate_library "m" 5 (context after) = Raise (UnresolvedSymbol "m" 5).
Proof.
  intros s s0 inside after.
  destruct (gate_definition_scope_isolation gate_library compute_expression get_identifier
              apply_modifier library_call py_add 1 2 "k" [] [mkNamed "a" 2] gate_k_body
              s (s0 := s0) eq_refl) as [Hin Hout].
  split; [| split].
  - exact (Hin gate_k_body [] inside (Return tt) (eq_sym (List.app_nil_r _)) eq_refl
             "n" (VInt 2) 1 eq_refl 4).
  - reflexivity.
  - destruct (Hout inside (Return tt) eq_refl "m" ltac:(discriminate) ltac:(discriminate))
      as [_ H].
    exact (proj2 (H 5) eq_refl).
Defined.

(** C7, as the code has it, on [qubit[2] q; reset q, r; x q[0];] where
    [r] is not declared. *)
Lemma translate_fail_fast_witness :
  let sk := fst (run 1 [declare_q]) in
  let sf := fst (process_Statement 1 reset_q_r sk) in
  run 1 [declare_q; reset_q_r; x_q0] = (sf, Raise (UnresolvedSymbol "r" 2))
  /\ translate gate_library compute_expression get_identifier apply_modifier library_call
       py_add 1 (mkProgram [declare_q; reset_q_r; x_q0])
     = Raise (UnresolvedSymbol "r" 2).
Proof.
  intros sk sf.
  destruct (translate_fail_fast gate_library compute_expression get_identifier
              apply_modifier library_call py_add 1 [declare_q] reset_q_r [x_q0]
              (sk := sk) (sf := sf) (e := UnresolvedSymbol "r" 2) eq_refl eq_refl)
    as (H1 & H2 & _).
  split; [exact H1 | exact H2].
Defined.

(** C7 as claimed fails on the same program. The first statement returns
    and leaves a circuit without operations; the second resets the two
    qubits of [q] and then raises on [r]; [translate] raises, and the
    circuit it leaves holds the reset, an operation that no statement
    before the failing one accumulated. *)
Lemma translate_keeps_partial_reset :
  let before := for_each [declare_q] (process_Statement 1) initial in
  let out := run 1 [declare_q; reset_q_r; x_q0] in
  snd before = Return tt
  /\ data (circuit (fst before)) = []
  /\ snd out = Raise (UnresolvedSymbol "r" 2)
  /\ data (circuit (fst out)) = [IReset (QMany [q0; q1])]
  /\ circuit (fst out) <> circuit (fst before).
Proof.
  intros before out. repeat split. discriminate.
Qed.

(** * The AST pretty-printer

    [openqasm/ast_printer.py]: [stringify] renders a nested Python value as
    indented text, one item per line, and [pretty_print] prints it. *)

Unset Implicit Arguments.

Module AstPrinter.

(** The objects [stringify] tells apart, in the order of its tests: a
    [str]; an object that is no dataclass, no [Mapping] and no [Iterable],
    given by the text [str(obj)]; a dataclass instance, by its class name
    and its fields in declaration order; a [dict] and any other [Mapping],
    by their items in iteration order; a [list], a [tuple] and any other
    [Iterable], by the items that iterating over them yields. *)
Inductive obj : Type :=
| Str (s : string)
| Atom (text : string)
| Dataclass (class_name : string) (fields : list (string * obj))
| Dict (items : list (obj * obj))
| Mapping (class_name : string) (items : list (obj * obj))
| PyList (elements : list obj)
| PyTuple (elements : list obj)
| Iterable (class_name : string) (elements : list obj).

(** The line feed of ["\n"]. *)
Definition newline : string := String "010"%char EmptyString.

Fixpoint replicate_space (n : nat) : string :=
  match n with
  | O => EmptyString
  | S n' => String " "%char (replicate_space n')
  end.

(** [n * " "]: the empty string when [n] is zero or negative. *)
Definition spaces (n : Z) : string := replicate_space (Z.to_nat n).

(** [f"{start}\n{body}\n{this_indent}{end}"]. *)
Definition block (start body this_indent end_ : string) : string :=
  String.append start
    (String.append newline
       (String.append body (String.append newline (String.append this_indent end_)))).

(** [stringify(obj, indent, _indents)]. *)
Fixpoint stringify (o : obj) (indent : Z) (_indents : nat) {struct o} : string :=
  let this_indent := spaces (indent * Z.of_nat _indents) in
  let next_indent := spaces (indent * (Z.of_nat _indents + 1)) in
  let item (x : obj) :=
    String.append next_indent (String.append (stringify x indent (S _indents)) ",") in
  let pair (kv : obj * obj) :=
    String.append next_indent
      (String.append (stringify (fst kv) indent (S _indents))
         (String.append ": " (String.append (stringify (snd kv) indent (S _indents)) ","))) in
  match o with
  | Str s => String.append "'" (String.append s "'")
  | Atom text => text
  | Dataclass class_name fields =>
      block (String.append class_name "(")
        (String.concat newline
           (List.map
              (fun field =>
                 String.append next_indent
                   (String.append (fst field)
                      (String.append "="
                         (String.append (stringify (snd field) indent (S _indents)) ","))))
              fields))
        this_indent ")"
  | Dict items =>
      block "{" (String.concat newline (List.map pair items)) this_indent "}"
  | Mapping class_name items =>
      block (String.append class_name "(")
        (String.concat newline (List.map pair items)) this_indent ")"
  | PyList elements =>
      block "[" (String.concat newline (List.map item elements)) this_indent "]"
  | PyTuple elements =>
      block "(" (String.concat newline (List.map item elements)) this_indent ")"
  | Iterable class_name elements =>
      block (String.append class_name "(")
        (String.concat newline (List.map item elements)) this_indent ")"
  end.

(** [pretty_print(obj, indent)]: the text [print] writes. *)
Definition pretty_print (o : obj) (indent : Z) : string :=
  String.append (stringify o indent 0) newline.

(** ** Vocabulary of the printer's properties *)

(** No line feed in a text. *)
Fixpoint one_line (s : string) : bool :=
  match s with
  | EmptyString => true
  | String c s' => negb (Ascii.eqb c "010"%char) && one_line s'
  end.

(** The number of line feeds in a text. *)
Fixpoint count_newlines (s : string) : nat :=
  match s with
  | EmptyString => O
  | String c s' =>
      (if Ascii.eqb c "010"%char then 1 else 0) + count_newlines s'
  end.

(** The text with [pad] put after each of its line feeds: every line but
    the first moved right by [pad]. *)
Fixpoint shift (pad : string) (s : string) : string :=
  match s with
  | EmptyString => EmptyString
  | String c s' =>
      if Ascii.eqb c "010"%char
      then String c (String.append pad (shift pad s'))
      else String c (shift pad s')
  end.

(** Class names, field names, strings and the texts of atoms are on one
    line. *)
Fixpoint one_line_leaves (o : obj) : bool :=
  match o with
  | Str s => one_line s
  | Atom text => one_line text
  | Dataclass class_name fields =>
      one_line class_name
      && List.forallb (fun field => one_line (fst field) && one_line_leaves (snd field)) fields
  | Dict items =>
      List.forallb (fun kv => one_line_leaves (fst kv) && one_line_leaves (snd kv)) items
  | Mapping class_name items =>
      one_line class_name
      && List.forallb (fun kv => one_line_leaves (fst kv) && one_line_leaves (snd kv)) items
  | PyList elements => List.forallb one_line_leaves elements
  | PyTuple elements => List.forallb one_line_leaves elements
  | Iterable class_name elements =>
      one_line class_name && List.forallb one_line_leaves elements
  end.

(** No container, at any depth, is empty. *)
Fixpoint no_empty_container (o : obj) : bool :=
  match o with
  | Str _ | Atom _ => true
  | Dataclass _ fields =>
      negb (Nat.eqb (List.length fields) 0)
      && List.forallb (fun field => no_empty_container (snd field)) fields
  | Dict items | Mapping _ items =>
      negb (Nat.eqb (List.length items) 0)
      && List.forallb
           (fun kv => no_empty_container (fst kv) && no_empty_container (snd kv)) items
  | PyList elements | PyTuple elements | Iterable _ elements =>
      negb (Nat.eqb (List.length elements) 0)
      && List.forallb no_empty_container elements
  end.

(** The line feeds of a block of [n] items whose texts hold [inner] line
    feeds in all: the two around the body and one between two items. *)
Definition block_newlines (n inner : nat) : nat := 2 + inner + Nat.pred n.

(** The number of line feeds [stringify] writes for an object whose
    leaves are on one line. *)
Fixpoint newlines_of (o : obj) : nat :=
  match o with
  | Str _ | Atom _ => O
  | Dataclass _ fields =>
      block_newlines (List.length fields)
        (List.list_sum (List.map (fun field => newlines_of (snd field)) fields))
  | Dict items | Mapping _ items =>
      block_newlines (List.length items)
        (List.list_sum
           (List.map (fun kv => newlines_of (fst kv) + newlines_of (snd kv))%nat items))
  | PyList elements | PyTuple elements | Iterable _ elements =>
      block_newlines (List.length elements) (List.list_sum (List.map newlines_of elements))
  end.

(** ** Induction on nested objects *)

Section ObjInduction.

Variable P : obj -> Prop.
Hypothesis HStr : forall s, P (Str s).
Hypothesis HAtom : forall text, P (Atom text).
Hypothesis HDataclass :
  forall class_name fields, List.Forall (fun field => P (snd field)) fields ->
                            P (Dataclass class_name fields).
Hypothesis HDict :
  forall items, List.Forall (fun kv => P (fst kv) /\ P (snd kv)) items -> P (Dict items).
Hypothesis HMapping :
  forall class_name items, List.Forall (fun kv => P (fst kv) /\ P (snd kv)) items ->
                           P (Mapping class_name items).
Hypothesis HList : forall elements, List.Forall P elements -> P (PyList elements).
Hypothesis HTuple : forall elements, List.Forall P elements -> P (PyTuple elements).
Hypothesis HIterable :
  forall class_name elements, List.Forall P elements -> P (Iterable class_name elements).

Fixpoint obj_nested_ind (o : obj) : P o :=
  let all :=
    fix all (l : list obj) : List.Forall P l :=
      match l with
      | [] => @List.Forall_nil _ _
      | x :: l' => @List.Forall_cons _ _ x l' (obj_nested_ind x) (all l')
      end in
  let all_pairs :=
    fix all_pairs (l : list (obj * obj)) : List.Forall (fun kv => P (fst kv) /\ P (snd kv)) l :=
      match l with
      | [] => @List.Forall_nil _ _
      | kv :: l' =>
          @List.Forall_cons _ _ kv l'
            (conj (obj_nested_ind (fst kv)) (obj_nested_ind (snd kv))) (all_pairs l')
      end in
  match o with
  | Str s => HStr s
  | Atom text => HAtom text
  | Dataclass class_name fields =>
      HDataclass class_name fields
        ((fix all_fields (l : list (string * obj)) : List.Forall (fun field => P (snd field)) l :=
            match l with
            | [] => @List.Forall_nil _ _
            | field :: l' =>
                @List.Forall_cons _ _ field l' (obj_nested_ind (snd field)) (all_fields l')
            end) fields)
  | Dict items => HDict items (all_pairs items)
  | Mapping class_name items => HMapping class_name items (all_pairs items)
  | PyList elements => HList elements (all elements)
  | PyTuple elements => HTuple elements (all elements)
  | Iterable class_name elements => HIterable class_name elements (all elements)
  end.

End ObjInduction.

(** ** Texts *)

Lemma app_assoc (x y z : string) :
  String.append (String.append x y) z = String.append x (String.append y z).
Proof.
  induction x as [| c x IH]; [reflexivity |].
  change (String c (String.append (String.append x y) z)
          = String c (String.append x (String.append y z))).
  now rewrite IH.
Qed.

Lemma count_newlines_app (x y : string) :
  count_newlines (String.append x y) = (count_newlines x + count_newlines y)%nat.
Proof.
  induction x as [| c x IH]; [reflexivity |].
  change (String.append (String c x) y) with (String c (String.append x y)).
  cbn [count_newlines]. rewrite IH. lia.
Qed.

Lemma count_newlines_one_line (x : string) : one_line x = true -> count_newlines x = 0%nat.
Proof.
  induction x as [| c x IH]; [reflexivity |]. cbn [one_line count_newlines].
  destruct (Ascii.eqb c "010"%char); [discriminate |]. exact IH.
Qed.

Lemma one_line_app (x y : string) :
  one_line (String.append x y) = one_line x && one_line y.
Proof.
  induction x as [| c x IH]; [reflexivity |].
  change (String.append (String c x) y) with (String c (String.append x y)).
  cbn [one_line]. rewrite IH. now destruct (negb _).
Qed.

Lemma one_line_spaces (n : Z) : one_line (spaces n) = true.
Proof. unfold spaces. induction (Z.to_nat n) as [| m IH]; [reflexivity | exact IH]. Qed.

Lemma count_newlines_concat (l : list string) :
  count_newlines (String.concat newline l)
  = (List.list_sum (List.map count_newlines l) + Nat.pred (List.length l))%nat.
Proof.
  induction l as [| x l IH]; [reflexivity |].
  destruct l as [| y l].
  - cbn. lia.
  - change (String.concat newline (x :: y :: l))
      with (String.append x (String.append newline (String.concat newline (y :: l)))).
    rewrite !count_newlines_app, IH. cbn. lia.
Qed.

Lemma count_newlines_block (start body this_indent end_ : string) :
  one_line start = true -> one_line this_indent = true -> one_line end_ = true ->
  count_newlines (block start body this_indent end_) = (2 + count_newlines body)%nat.
Proof.
  intros Hs Ht He. unfold block. rewrite !count_newlines_app.
  rewrite (count_newlines_one_line _ Hs), (count_newlines_one_line _ Ht),
    (count_newlines_one_line _ He).
  cbn. lia.
Qed.

Lemma forallb_Forall {A : Type} (f : A -> bool) (l : list A) :
  List.forallb f l = true -> List.Forall (fun x => f x = true) l.
Proof. intros H. apply List.Forall_forall. now apply List.forallb_forall. Qed.

Lemma list_sum_counts {A : Type} (item : A -> string) (g : A -> nat) (l : list A) :
  List.Forall (fun x => count_newlines (item x) = g x) l ->
  List.list_sum (List.map count_newlines (List.map item l)) = List.list_sum (List.map g l).
Proof.
  intros H. unfold List.list_sum.
  induction H as [| x l Hx _ IH]; cbn; [reflexivity | now rewrite Hx, IH].
Qed.

(** ** The height of the output *)

(** X12. For an object whose strings, atoms, class and field names hold no
    line feed, the number of line feeds in the output depends neither on
    [indent] nor on the nesting level: every container gives the two around
    its body and one between two of its items, so that an empty container
    still takes three lines. *)
Theorem stringify_newlines (o : obj) :
  one_line_leaves o = true ->
  forall (indent : Z) (_indents : nat),
    count_newlines (stringify o indent _indents) = newlines_of o.
Proof.
  induction o as [s | text | class_name fields IH | items IH | class_name items IH
                 | elements IH | elements IH | class_name elements IH]
    using obj_nested_ind; intros Hleaves indent k; cbn [one_line_leaves] in Hleaves.
  - cbn [stringify newlines_of]. rewrite !count_newlines_app.
    rewrite (count_newlines_one_line _ Hleaves). reflexivity.
  - now apply count_newlines_one_line.
  - apply andb_prop in Hleaves as [Hname Hfields]. apply forallb_Forall in Hfields.
    cbn [stringify newlines_of].
    rewrite count_newlines_block, count_newlines_concat, List.length_map;
      [| now rewrite one_line_app, Hname | apply one_line_spaces | reflexivity].
    rewrite (list_sum_counts _ (fun field => newlines_of (snd field)));
      [unfold block_newlines; lia |].
    pose proof (List.Forall_and IH Hfields) as H.
    eapply List.Forall_impl; [| exact H]. cbn beta.
    intros field [Hind Hf]. apply andb_prop in Hf as [Hfn Hfv].
    rewrite !count_newlines_app, (count_newlines_one_line _ (one_line_spaces _)),
      (count_newlines_one_line _ Hfn), (Hind Hfv). cbn. lia.
  - apply forallb_Forall in Hleaves. cbn [stringify newlines_of].
    rewrite count_newlines_block, count_newlines_concat, List.length_map;
      [| reflexivity | apply one_line_spaces | reflexivity].
    rewrite (list_sum_counts _ (fun kv => newlines_of (fst kv) + newlines_of (snd kv))%nat);
      [unfold block_newlines; lia |].
    pose proof (List.Forall_and IH Hleaves) as H.
    eapply List.Forall_impl; [| exact H]. cbn beta.
    intros kv [[Hk Hv] Hf]. apply andb_prop in Hf as [Hfk Hfv].
    rewrite !count_newlines_app, (count_newlines_one_line _ (one_line_spaces _)),
      (Hk Hfk), (Hv Hfv). cbn. lia.
  - apply andb_prop in Hleaves as [Hname Hitems]. apply forallb_Forall in Hitems.
    cbn [stringify newlines_of].
    rewrite count_newlines_block, count_newlines_concat, List.length_map;
      [| now rewrite one_line_app, Hname | apply one_line_spaces | reflexivity].
    rewrite (list_sum_counts _ (fun kv => newlines_of (fst kv) + newlines_of (snd kv))%nat);
      [unfold block_newlines; lia |].
    pose proof (List.Forall_and IH Hitems) as H.
    eapply List.Forall_impl; [| exact H]. cbn beta.
    intros kv [[Hk Hv] Hf]. apply andb_prop in Hf as [Hfk Hfv].
    rewrite !count_newlines_app, (count_newlines_one_line _ (one_line_spaces _)),
      (Hk Hfk), (Hv Hfv). cbn. lia.
  - apply forallb_Forall in Hleaves. cbn [stringify newlines_of].
    rewrite count_newlines_block, count_newlines_concat, List.length_map;
      [| reflexivity | apply one_line_spaces | reflexivity].
    rewrite (list_sum_counts _ newlines_of); [unfold block_newlines; lia |].
    pose proof (List.Forall_and IH Hleaves) as H.
    eapply List.Forall_impl; [| exact H]. cbn beta.
    intros x [Hind Hf].
    rewrite !count_newlines_app, (count_newlines_one_line _ (one_line_spaces _)),
      (Hind Hf). cbn. lia.
  - apply forallb_Forall in Hleaves. cbn [stringify newlines_of].
    rewrite count_newlines_block, count_newlines_concat, List.length_map;
      [| reflexivity | apply one_line_spaces | reflexivity].
    rewrite (list_sum_counts _ newlines_of); [unfold block_newlines; lia |].
    pose proof (List.Forall_and IH Hleaves) as H.
    eapply List.Forall_impl; [| exact H]. cbn beta.
    intros x [Hind Hf].
    rewrite !count_newlines_app, (count_newlines_one_line _ (one_line_spaces _)),
      (Hind Hf). cbn. lia.
  - apply andb_prop in Hleaves as [Hname Helements]. apply forallb_Forall in Helements.
    cbn [stringify newlines_of].
    rewrite count_newlines_block, count_newlines_concat, List.length_map;
      [| now rewrite one_line_app, Hname | apply one_line_spaces | reflexivity].
    rewrite (list_sum_counts _ newlines_of); [unfold block_newlines; lia |].
    pose proof (List.Forall_and IH Helements) as H.
    eapply List.Forall_impl; [| exact H]. cbn beta.
    intros x [Hind Hf].
    rewrite !count_newlines_app, (count_newlines_one_line _ (one_line_spaces _)),
      (Hind Hf). cbn. lia.
Qed.

(** ** Indentation *)

Lemma spaces_nonpos (n : Z) : (n <= 0)%Z -> spaces n = EmptyString.
Proof. intros H. unfold spaces. now replace (Z.to_nat n) with 0%nat by lia. Qed.

(** X13. With [indent] zero or negative nothing is indented, at any
    nesting level: the output is the one for [indent = 0] at the top level
    (a negative [indent] is not an error). *)
Theorem stringify_without_indent (o : obj) :
  forall (indent : Z) (_indents : nat),
    (indent <= 0)%Z -> stringify o indent _indents = stringify o 0 0.
Proof.
  induction o as [s | text | class_name fields IH | items IH | class_name items IH
                 | elements IH | elements IH | class_name elements IH]
    using obj_nested_ind; intros indent k Hneg; try reflexivity;
    cbn [stringify]; rewrite !spaces_nonpos by nia;
    (erewrite List.map_ext_Forall; [reflexivity |]);
    (eapply List.Forall_impl; [| exact IH]); cbn beta.
  - intros field Hf. now rewrite (Hf indent (S k) Hneg), (Hf 0%Z 1%nat ltac:(lia)).
  - intros kv [Hk Hv].
    now rewrite (Hk indent (S k) Hneg), (Hk 0%Z 1%nat ltac:(lia)),
      (Hv indent (S k) Hneg), (Hv 0%Z 1%nat ltac:(lia)).
  - intros kv [Hk Hv].
    now rewrite (Hk indent (S k) Hneg), (Hk 0%Z 1%nat ltac:(lia)),
      (Hv indent (S k) Hneg), (Hv 0%Z 1%nat ltac:(lia)).
  - intros x Hx. now rewrite (Hx indent (S k) Hneg), (Hx 0%Z 1%nat ltac:(lia)).
  - intros x Hx. now rewrite (Hx indent (S k) Hneg), (Hx 0%Z 1%nat ltac:(lia)).
  - intros x Hx. now rewrite (Hx indent (S k) Hneg), (Hx 0%Z 1%nat ltac:(lia)).
Qed.

Lemma app_nil_r (x : string) : String.append x EmptyString = x.
Proof.
  induction x as [| c x IH]; [reflexivity |].
  change (String c (String.append x EmptyString) = String c x). now rewrite IH.
Qed.

Lemma shift_app (pad x y : string) :
  shift pad (String.append x y) = String.append (shift pad x) (shift pad y).
Proof.
  induction x as [| c x IH]; [reflexivity |].
  change (String.append (String c x) y) with (String c (String.append x y)).
  cbn [shift]. destruct (Ascii.eqb c "010"%char).
  - change (String c (String.append pad (shift pad (String.append x y)))
            = String c (String.append (String.append pad (shift pad x)) (shift pad y))).
    now rewrite IH, app_assoc.
  - change (String c (shift pad (String.append x y))
            = String c (String.append (shift pad x) (shift pad y))).
    now rewrite IH.
Qed.

Lemma shift_one_line (pad x : string) : one_line x = true -> shift pad x = x.
Proof.
  induction x as [| c x IH]; [reflexivity |]. cbn [one_line shift].
  destruct (Ascii.eqb c "010"%char); [discriminate |]. cbn. intros H. now rewrite IH.
Qed.

Lemma shift_newline (pad : string) : shift pad newline = String.append newline pad.
Proof.
  unfold newline. cbn [shift Ascii.eqb Bool.eqb]. cbn.
  change (String "010"%char (String.append pad EmptyString) = String "010"%char pad).
  now rewrite app_nil_r.
Qed.

Lemma replicate_space_add (a b : nat) :
  replicate_space (a + b) = String.append (replicate_space a) (replicate_space b).
Proof.
  induction a as [| a IH]; [reflexivity |]. cbn [Nat.add replicate_space].
  change (String " "%char (replicate_space (a + b))
          = String " "%char (String.append (replicate_space a) (replicate_space b))).
  now rewrite IH.
Qed.

Lemma spaces_next (indent m : Z) :
  (0 <= m)%Z ->
  spaces (indent * (m + 1)) = String.append (spaces indent) (spaces (indent * m)).
Proof.
  intros Hm. destruct (Z.le_gt_cases indent 0) as [Hneg | Hpos].
  - now rewrite !spaces_nonpos by nia.
  - unfold spaces. rewrite <- replicate_space_add. f_equal. nia.
Qed.

(** The body of a block one level deeper is the body moved right. *)
Lemma body_shift {A : Type} (pad : string) (item item' : A -> string) (l : list A) :
  l <> [] ->
  List.Forall (fun x => item' x = String.append pad (shift pad (item x))) l ->
  String.concat newline (List.map item' l)
  = String.append pad (shift pad (String.concat newline (List.map item l))).
Proof.
  intros Hne H. induction H as [| x l Hx Hl IH]; [now destruct Hne |].
  destruct l as [| y l].
  - cbn. exact Hx.
  - change (String.concat newline (List.map item' (x :: y :: l)))
      with (String.append (item' x)
              (String.append newline (String.concat newline (List.map item' (y :: l))))).
    change (String.concat newline (List.map item (x :: y :: l)))
      with (String.append (item x)
              (String.append newline (String.concat newline (List.map item (y :: l))))).
    rewrite IH by discriminate.
    rewrite Hx, !shift_app, shift_newline, !app_assoc. reflexivity.
Qed.

Lemma block_shift (pad start body this_indent end_ : string) :
  one_line start = true -> one_line this_indent = true -> one_line end_ = true ->
  block start (String.append pad (shift pad body)) (String.append pad this_indent) end_
  = shift pad (block start body this_indent end_).
Proof.
  intros Hs Ht He. unfold block.
  rewrite !shift_app, shift_newline, (shift_one_line pad start Hs),
    (shift_one_line pad this_indent Ht), (shift_one_line pad end_ He), !app_assoc.
  reflexivity.
Qed.

Lemma nonempty_of_length {A : Type} (l : list A) :
  negb (Nat.eqb (List.length l) 0) = true -> l <> [].
Proof. now destruct l. Qed.

(** X14. Nesting only moves the text right. For an object whose strings,
    atoms, class and field names hold no line feed and none of whose
    containers is empty, the output at one nesting level more is the output
    at the level itself with [indent] spaces put at the start of every line
    but the first. *)
Theorem stringify_nested_is_shifted (o : obj) :
  one_line_leaves o = true ->
  no_empty_container o = true ->
  forall (indent : Z) (_indents : nat),
    stringify o indent (S _indents)
    = shift (spaces indent) (stringify o indent _indents).
Proof.
  induction o as [s | text | class_name fields IH | items IH | class_name items IH
                 | elements IH | elements IH | class_name elements IH]
    using obj_nested_ind; intros Hleaves Hfull indent k;
    cbn [one_line_leaves no_empty_container] in Hleaves, Hfull.
  - cbn [stringify]. symmetry. apply shift_one_line.
    now rewrite !one_line_app, Hleaves.
  - cbn [stringify]. symmetry. now apply shift_one_line.
  - apply andb_prop in Hleaves as [Hname Hfields]. apply forallb_Forall in Hfields.
    apply andb_prop in Hfull as [Hne Hfull]. apply forallb_Forall in Hfull.
    apply nonempty_of_length in Hne.
    cbn [stringify]. rewrite !Nat2Z.inj_succ. unfold Z.succ.
    rewrite !spaces_next by lia.
    rewrite <- block_shift;
      [| now rewrite one_line_app, Hname | apply one_line_spaces | reflexivity].
    f_equal. apply body_shift; [exact Hne |].
    pose proof (List.Forall_and IH (List.Forall_and Hfields Hfull)) as H.
    eapply List.Forall_impl; [| exact H]. cbn beta.
    intros field [Hind [Hf Hc]]. apply andb_prop in Hf as [Hfn Hfv].
    rewrite (Hind Hfv Hc indent (S k)).
    rewrite !shift_app, !(shift_one_line _ _ (one_line_spaces _)),
      (shift_one_line _ _ Hfn), !app_assoc. reflexivity.
  - apply forallb_Forall in Hleaves.
    apply andb_prop in Hfull as [Hne Hfull]. apply forallb_Forall in Hfull.
    apply nonempty_of_length in Hne.
    cbn [stringify]. rewrite !Nat2Z.inj_succ. unfold Z.succ.
    rewrite !spaces_next by lia.
    rewrite <- block_shift; [| reflexivity | apply one_line_spaces | reflexivity].
    f_equal. apply body_shift; [exact Hne |].
    pose proof (List.Forall_and IH (List.Forall_and Hleaves Hfull)) as H.
    eapply List.Forall_impl; [| exact H]. cbn beta.
    intros kv [[Hk Hv] [Hf Hc]]. apply andb_prop in Hf as [Hfk Hfv].
    apply andb_prop in Hc as [Hck Hcv].
    rewrite (Hk Hfk Hck indent (S k)), (Hv Hfv Hcv indent (S k)).
    rewrite !shift_app, !(shift_one_line _ _ (one_line_spaces _)), !app_assoc.
    reflexivity.
  - apply andb_prop in Hleaves as [Hname Hitems]. apply forallb_Forall in Hitems.
    apply andb_prop in Hfull as [Hne Hfull]. apply forallb_Forall in Hfull.
    apply nonempty_of_length in Hne.
    cbn [stringify]. rewrite !Nat2Z.inj_succ. unfold Z.succ.
    rewrite !spaces_next by lia.
    rewrite <- block_shift;
      [| now rewrite one_line_app, Hname | apply one_line_spaces | reflexivity].
    f_equal. apply body_shift; [exact Hne |].
    pose proof (List.Forall_and IH (List.Forall_and Hitems Hfull)) as H.
    eapply List.Forall_impl; [| exact H]. cbn beta.
    intros kv [[Hk Hv] [Hf Hc]]. apply andb_prop in Hf as [Hfk Hfv].
    apply andb_prop in Hc as [Hck Hcv].
    rewrite (Hk Hfk Hck indent (S k)), (Hv Hfv Hcv indent (S k)).
    rewrite !shift_app, !(shift_one_line _ _ (one_line_spaces _)), !app_assoc.
    reflexivity.
  - apply forallb_Forall in Hleaves.
    apply andb_prop in Hfull as [Hne Hfull]. apply forallb_Forall in Hfull.
    apply nonempty_of_length in Hne.
    cbn [stringify]. rewrite !Nat2Z.inj_succ. unfold Z.succ.
    rewrite !spaces_next by lia.
    rewrite <- block_shift; [| reflexivity | apply one_line_spaces | reflexivity].
    f_equal. apply body_shift; [exact Hne |].
    pose proof (List.Forall_and IH (List.Forall_and Hleaves Hfull)) as H.
    eapply List.Forall_impl; [| exact H]. cbn beta.
    intros x [Hind [Hf Hc]].
    rewrite (Hind Hf Hc indent (S k)).
    rewrite !shift_app, !(shift_one_line _ _ (one_line_spaces _)), !app_assoc.
    reflexivity.
  - apply forallb_Forall in Hleaves.
    apply andb_prop in Hfull as [Hne Hfull]. apply forallb_Forall in Hfull.
    apply nonempty_of_length in Hne.
    cbn [stringify]. rewrite !Nat2Z.inj_succ. unfold Z.succ.
    rewrite !spaces_next by lia.
    rewrite <- block_shift; [| reflexivity | apply one_line_spaces | reflexivity].
    f_equal. apply body_shift; [exact Hne |].
    pose proof (List.Forall_and IH (List.Forall_and Hleaves Hfull)) as H.
    eapply List.Forall_impl; [| exact H]. cbn beta.
    intros x [Hind [Hf Hc]].
    rewrite (Hind Hf Hc indent (S k)).
    rewrite !shift_app, !(shift_one_line _ _ (one_line_spaces _)), !app_assoc.
    reflexivity.
  - apply andb_prop in Hleaves as [Hname Helements]. apply forallb_Forall in Helements.
    apply andb_prop in Hfull as [Hne Hfull]. apply forallb_Forall in Hfull.
    apply nonempty_of_length in Hne.
    cbn [stringify]. rewrite !Nat2Z.inj_succ. unfold Z.succ.
    rewrite !spaces_next by lia.
    rewrite <- block_shift;
      [| now rewrite one_line_app, Hname | apply one_line_spaces | reflexivity].
    f_equal. apply body_shift; [exact Hne |].
    pose proof (List.Forall_and IH (List.Forall_and Helements Hfull)) as H.
    eapply List.Forall_impl; [| exact H]. cbn beta.
    intros x [Hind [Hf Hc]].
    rewrite (Hind Hf Hc indent (S k)).
    rewrite !shift_app, !(shift_one_line _ _ (one_line_spaces _)), !app_assoc.
    reflexivity.
Qed.

End AstPrinter.

(** * More concrete runs *)

(** The store after [qubit[2] q;]. *)
Definition after_declare_q : Sample.sto := fst (Sample.run 1 [Sample.declare_q]).

(** The circuit of [gate g(theta) a, b { rz(theta) b; cx a, b; }]. *)
Definition circuit_of_g : QuantumCircuit Sample.Modifier Sample.Classical Sample.Qubit :=
  mkCircuit 2 []
    [IGate (GLibrary "rz" [VParameter "theta"]) [QMany [PositionalQubit 1]];
     IGate (GLibrary "cx" []) [QMany [PositionalQubit 0]; QMany [PositionalQubit 1]]]
    (VInt 0).

(** X1 on [reset q, q[1];] after [qubit[2] q;]. *)
Lemma process_QuantumReset_all_witness :
  _process_QuantumReset (Expression := Expression) (ClassicalType := ClassicalType)
    get_identifier (QuantumReset 2 [Whole "q" 2; Indexed "q" 1 2]) after_declare_q
  = (mkStore
       (mkCircuit 0 [VRegister (VInt 2) "q"]
          [IReset (QMany [q0; q1]); IReset (QMany [q1])] (VInt 0))
       (context after_declare_q),
     Return tt).
Proof.
  exact (process_QuantumReset_all Span Expression Operand Modifier ClassicalType Classical
           Qubit get_identifier 2 [Whole "q" 2; Indexed "q" 1 2] after_declare_q
           [[q0; q1]; [q1]] eq_refl).
Defined.

(** X2 on [reset q, r, q;] after [qubit[2] q;], where [r] is not
    declared. *)
Lemma process_QuantumReset_partial_witness :
  _process_QuantumReset (Expression := Expression) (ClassicalType := ClassicalType)
    get_identifier (QuantumReset 2 [Whole "q" 2; Whole "r" 2; Whole "q" 2]) after_declare_q
  = (mkStore
       (mkCircuit 0 [VRegister (VInt 2) "q"] [IReset (QMany [q0; q1])] (VInt 0))
       (context after_declare_q),
     Raise (UnresolvedSymbol "r" 2)).
Proof.
  exact (process_QuantumReset_partial Span Expression Operand Modifier ClassicalType
           Classical Qubit get_identifier 2 [Whole "q" 2] (Whole "r" 2) [Whole "q" 2]
           after_declare_q [[q0; q1]] (UnresolvedSymbol "r" 2) eq_refl eq_refl).
Defined.

(** X4 on [q q[0];] after [qubit[2] q;]: [q] is a register, not a gate. *)
Lemma process_QuantumGate_not_callable_witness :
  _process_QuantumGate (ClassicalType := ClassicalType) gate_library compute_expression
    get_identifier apply_modifier library_call
    (QuantumGate 3 [] "q" [] [Indexed "q" 0 3]) after_declare_q
  = (after_declare_q, Raise TypeError).
Proof.
  apply (process_QuantumGate_not_callable Span Expression Operand Modifier ClassicalType
           Classical Qubit gate_library compute_expression get_identifier apply_modifier
           library_call 3 [] "q" [] [Indexed "q" 0 3] after_declare_q []
           (VRegister (VInt 2) "q")).
  - reflexivity.
  - reflexivity.
  - discriminate.
Defined.

(** X5 on [g(5, 6) q[0], q[1];] after the definition of [g], which has
    one parameter. *)
Lemma process_QuantumGate_too_many_arguments_witness :
  let s1 := fst (process_Statement 2 gate_g after_declare_q) in
  _process_QuantumGate (ClassicalType := ClassicalType) gate_library compute_expression
    get_identifier apply_modifier library_call
    (QuantumGate 5 [] "g" [IntegerLiteral 5; IntegerLiteral 6]
       [Indexed "q" 0 5; Indexed "q" 1 5]) s1
  = (s1, Raise IndexError).
Proof.
  intros s1.
  exact (process_QuantumGate_too_many_arguments Span Expression Operand Modifier
           ClassicalType Classical Qubit gate_library compute_expression get_identifier
           apply_modifier library_call 5 [] "g" [IntegerLiteral 5; IntegerLiteral 6]
           [Indexed "q" 0 5; Indexed "q" 1 5] s1 [VInt 5; VInt 6] circuit_of_g ["theta"]
           eq_refl eq_refl (le_n 2)).
Defined.

(** X10 on [qubit[2] q;] followed by [x q[0];]. *)
Lemma translate_in_sequence_witness :
  run 1 [declare_q; x_q0] = for_each [x_q0] (process_Statement 1) after_declare_q
  /\ translate gate_library compute_expression get_identifier apply_modifier library_call
       py_add 1 (mkProgram [declare_q])
     = Return (mkCircuit 0 [VRegister (VInt 2) "q"] [] (VInt 0)).
Proof.
  exact (translate_in_sequence Span Expression Operand Modifier ClassicalType Classical
           Qubit gate_library compute_expression get_identifier apply_modifier library_call
           py_add 1 [declare_q] [x_q0] after_declare_q eq_refl).
Defined.


(** A list of the number 1, the string a and a pair, as the printer
    writes it with the default [indent] of 4. *)
Definition printed_sample : AstPrinter.obj :=
  AstPrinter.PyList
    [ AstPrinter.Atom "1"; AstPrinter.Str "a";
      AstPrinter.PyTuple [AstPrinter.Atom "2"; AstPrinter.Atom "None"] ].

Example stringify_sample :
  AstPrinter.stringify printed_sample 4 0 =
"[
    1,
    'a',
    (
        2,
        None,
    ),
]".
Proof. reflexivity. Qed.

(** X12 on the sample and on the empty dictionary. *)
Lemma stringify_newlines_witness :
  AstPrinter.count_newlines (AstPrinter.stringify printed_sample 4 0) = 7%nat
  /\ AstPrinter.count_newlines (AstPrinter.stringify (AstPrinter.Dict []) 4 3) = 2%nat.
Proof.
  split.
  - exact (AstPrinter.stringify_newlines printed_sample eq_refl 4 0).
  - exact (AstPrinter.stringify_newlines (AstPrinter.Dict []) eq_refl 4 3).
Defined.

(** X13 on the sample, with [indent = -2] at nesting level 3. *)
Lemma stringify_without_indent_witness :
  AstPrinter.stringify printed_sample (-2) 3 = AstPrinter.stringify printed_sample 0 0.
Proof.
  apply AstPrinter.stringify_without_indent. lia.
Defined.

(** X14 on the sample: level 1 against level 0, two spaces a level. *)
Lemma stringify_nested_is_shifted_witness :
  AstPrinter.stringify printed_sample 2 1
  = AstPrinter.shift "  " (AstPrinter.stringify printed_sample 2 0).
Proof.
  exact (AstPrinter.stringify_nested_is_shifted printed_sample eq_refl eq_refl 2 0).
Defined.

(** X15 on [qubit[2] q; barrier q; x q[0];]: there is no
    [_process_QuantumBarrier]. *)
Lemma translate_unsupported_node_witness :
  run 1 [declare_q; OtherNode "QuantumBarrier"; x_q0]
  = (after_declare_q, Raise (UnsupportedFeature "QuantumBarrier")).
Proof.
  exact (proj1 (translate_unsupported_node Span Expression Operand Modifier ClassicalType
                  Classical Qubit gate_library compute_expression get_identifier
                  apply_modifier library_call py_add 0 [declare_q]
                  (OtherNode "QuantumBarrier") [x_q0] after_declare_q eq_refl
                  ltac:(rewrite supported_features_eq; cbn; intuition discriminate))).
Defined.

(** X16 on [gate k a { x a; barrier a; }] after [qubit[2] q;]. *)
Lemma gate_definition_unsupported_node_witness :
  process_Statement 2
    (QuantumGateDefinition 2 "k" [] [mkNamed "a" 2]
       [QuantumGate 3 [] "x" [] [Whole "a" 3]; OtherNode "QuantumBarrier"])
    after_declare_q
  = (after_declare_q, Raise (UnsupportedFeature "QuantumBarrier")).
Proof.
  pose (s0 := fst (declare_gate_parameters [] [mkNamed "a" 2]
                     (gate_definition_store [mkNamed "a" 2] after_declare_q))).
  pose (sk := fst (process_Statement 1 (QuantumGate 3 [] "x" [] [Whole "a" 3]) s0)).
  exact (gate_definition_unsupported_node Span Expression Operand Modifier ClassicalType
           Classical Qubit gate_library compute_expression get_identifier apply_modifier
           library_call py_add 0 2 "k" [] [mkNamed "a" 2]
           [QuantumGate 3 [] "x" [] [Whole "a" 3]] (OtherNode "QuantumBarrier") []
           after_declare_q s0 sk eq_refl eq_refl ltac:(rewrite supported_features_eq; cbn; intuition discriminate)).
Defined.
